(** * ProManage store: a shallow embedding of [src/store/useStore.ts]

    The application keeps one zustand store ([useStore]) wrapped in the
    [persist] middleware, and a credential list under the localStorage key
    ['promanage-users'].  The store actions are embedded as computations in
    a small state monad over a [World] that holds the in-memory store state,
    the two localStorage items, the ['dark'] class flag of the document root
    and the two sources of non-determinism the actions read
    ([Math.random] and [new Date()]). *)

From Stdlib Require Import String List Bool Arith Lia.
Import ListNotations.
Open Scope string_scope.
Open Scope list_scope.

(** ** Data model (the interfaces of useStore.ts) *)

(** [theme: 'light' | 'dark'] *)
Inductive Theme : Type := light | dark.

(** [status: 'todo' | 'in-progress' | 'completed'] *)
Inductive Status : Type := todo | in_progress | completed.

(** [priority: 'low' | 'medium' | 'high'] *)
Inductive Priority : Type := low | medium | high.

(** [interface User { id; name; email; avatar? }] *)
Module User.
Record t : Type := mk {
  id : string;
  name : string;
  email : string;
  avatar : option string
}.
End User.

(** [interface Task] *)
Module Task.
Record t : Type := mk {
  id : string;
  projectId : string;
  title : string;
  description : string;
  status : Status;
  priority : Priority;
  dueDate : string;
  createdAt : string
}.
End Task.

(** [interface Project] *)
Module Project.
Record t : Type := mk {
  id : string;
  name : string;
  description : string;
  color : string;
  createdAt : string
}.
End Project.

(** An entry of the credential list, with the shape the [find] callback of
    [login] gives it: [{ email: string; password: string; name: string;
    id?: string }].  The id is optional there. *)
Module Account.
Record t : Type := mk {
  id : option string;
  name : string;
  email : string;
  password : string
}.
End Account.

(** [Omit<Project, 'id' | 'createdAt'>], the argument of [addProject]. *)
Module NewProject.
Record t : Type := mk {
  name : string;
  description : string;
  color : string
}.
End NewProject.

(** [Omit<Task, 'id' | 'createdAt'>], the argument of [addTask]. *)
Module NewTask.
Record t : Type := mk {
  projectId : string;
  title : string;
  description : string;
  status : Status;
  priority : Priority;
  dueDate : string
}.
End NewTask.

(** [Partial<Project>]: every field may be absent ([None]). *)
Module PartialProject.
Record t : Type := mk {
  id : option string;
  name : option string;
  description : option string;
  color : option string;
  createdAt : option string
}.
Definition empty : t := mk None None None None None.
End PartialProject.

(** [Partial<Task>]: every field may be absent ([None]). *)
Module PartialTask.
Record t : Type := mk {
  id : option string;
  projectId : option string;
  title : option string;
  description : option string;
  status : option Status;
  priority : option Priority;
  dueDate : option string;
  createdAt : option string
}.
Definition empty : t := mk None None None None None None None None.
(** The object literal [{ status }]. *)
Definition only_status (s : Status) : t :=
  mk None None None None (Some s) None None None.
End PartialTask.

(** One field of an object spread [{ ...old, ...patch }]: the patch wins
    where it has the field. *)
Definition override {A : Type} (old : A) (patch : option A) : A :=
  match patch with
  | Some v => v
  | None => old
  end.

(** [{ ...p, ...project }] *)
Definition spreadProject (p : Project.t) (project : PartialProject.t) : Project.t :=
  {| Project.id := override (Project.id p) (PartialProject.id project);
     Project.name := override (Project.name p) (PartialProject.name project);
     Project.description := override (Project.description p) (PartialProject.description project);
     Project.color := override (Project.color p) (PartialProject.color project);
     Project.createdAt := override (Project.createdAt p) (PartialProject.createdAt project) |}.

(** [{ ...t, ...task }] *)
Definition spreadTask (t : Task.t) (task : PartialTask.t) : Task.t :=
  {| Task.id := override (Task.id t) (PartialTask.id task);
     Task.projectId := override (Task.projectId t) (PartialTask.projectId task);
     Task.title := override (Task.title t) (PartialTask.title task);
     Task.description := override (Task.description t) (PartialTask.description task);
     Task.status := override (Task.status t) (PartialTask.status task);
     Task.priority := override (Task.priority t) (PartialTask.priority task);
     Task.dueDate := override (Task.dueDate t) (PartialTask.dueDate task);
     Task.createdAt := override (Task.createdAt t) (PartialTask.createdAt task) |}.

(** The data fields of [AppState] (its other members are the actions). *)
Module AppState.
Record t : Type := mk {
  user : option User.t;
  projects : list Project.t;
  tasks : list Task.t;
  theme : Theme
}.
End AppState.

(** The object the store is created with: [user: null, projects: [],
    tasks: [], theme: 'light']. *)
Definition initialState : AppState.t :=
  {| AppState.user := None;
     AppState.projects := [];
     AppState.tasks := [];
     AppState.theme := light |}.

(** ** The world the actions run in *)

(** The two non-deterministic reads of the actions, as oracles: the k-th
    value of [Math.random().toString(36).substr(2, 9)] and the k-th value of
    [new Date().toISOString()]. *)
Record Oracle : Type := {
  random36 : nat -> string;
  isoTime : nat -> string
}.

Record World : Type := {
  state : AppState.t;                       (* the zustand store *)
  users_item : option (list Account.t);     (* localStorage['promanage-users'] *)
  storage_item : option AppState.t;         (* localStorage['promanage-storage'] *)
  darkClass : bool;                         (* 'dark' in documentElement.classList *)
  oracle : Oracle;
  draws : nat;                              (* calls of Math.random so far *)
  ticks : nat                               (* readings of the clock so far *)
}.

Definition with_state (s : AppState.t) (w : World) : World :=
  {| state := s; users_item := users_item w; storage_item := storage_item w;
     darkClass := darkClass w; oracle := oracle w; draws := draws w; ticks := ticks w |}.

Definition with_users_item (u : option (list Account.t)) (w : World) : World :=
  {| state := state w; users_item := u; storage_item := storage_item w;
     darkClass := darkClass w; oracle := oracle w; draws := draws w; ticks := ticks w |}.

Definition with_storage_item (p : option AppState.t) (w : World) : World :=
  {| state := state w; users_item := users_item w; storage_item := p;
     darkClass := darkClass w; oracle := oracle w; draws := draws w; ticks := ticks w |}.

Definition with_darkClass (b : bool) (w : World) : World :=
  {| state := state w; users_item := users_item w; storage_item := storage_item w;
     darkClass := b; oracle := oracle w; draws := draws w; ticks := ticks w |}.

Definition with_draws (n : nat) (w : World) : World :=
  {| state := state w; users_item := users_item w; storage_item := storage_item w;
     darkClass := darkClass w; oracle := oracle w; draws := n; ticks := ticks w |}.

Definition with_ticks (n : nat) (w : World) : World :=
  {| state := state w; users_item := users_item w; storage_item := storage_item w;
     darkClass := darkClass w; oracle := oracle w; draws := draws w; ticks := n |}.

(** ** A state monad over the world *)

Definition M (A : Type) : Type := World -> A * World.

Definition ret {A : Type} (a : A) : M A := fun w => (a, w).

Definition bind {A B : Type} (m : M A) (k : A -> M B) : M B :=
  fun w => let (a, w') := m w in k a w'.

Declare Scope store_scope.
Delimit Scope store_scope with store.
Notation "x <- m ;; k" := (bind m (fun x => k))
  (at level 61, m at next level, right associativity) : store_scope.
Notation "m ;; k" := (bind m (fun _ => k))
  (at level 61, right associativity) : store_scope.
Open Scope store_scope.

Definition result {A : Type} (m : M A) (w : World) : A := fst (m w).
Definition after {A : Type} (m : M A) (w : World) : World := snd (m w).

(** *** Primitive effects *)

(** [const generateId = () => Math.random().toString(36).substr(2, 9)] *)
Definition generateId : M string :=
  fun w => (random36 (oracle w) (draws w), with_draws (S (draws w)) w).

(** [new Date().toISOString()] *)
Definition nowISO : M string :=
  fun w => (isoTime (oracle w) (ticks w), with_ticks (S (ticks w)) w).

(** [JSON.parse(localStorage.getItem('promanage-users') || '[]')] *)
Definition getStoredUsers : M (list Account.t) :=
  fun w => (match users_item w with Some l => l | None => [] end, w).

(** [localStorage.setItem('promanage-users', JSON.stringify(storedUsers))] *)
Definition setStoredUsers (l : list Account.t) : M unit :=
  fun w => (tt, with_users_item (Some l) w).

(** [document.documentElement.classList.toggle('dark', force)] *)
Definition classList_toggle_dark (force : bool) : M unit :=
  fun w => (tt, with_darkClass force w).

(** Modelled from the spec: the [persist] middleware of zustand, which is a
    dependency and not part of the sources.  With the options of this store
    (a name only: no [partialize], no [version], no [migrate], the default
    JSON storage over localStorage) it writes, after every [set], the data
    fields of the whole state under ['promanage-storage'], replacing what
    was there ("persisting the entire application state ... as one snapshot,
    overwriting any prior snapshot").  The JSON text is not modelled: the
    item holds the record that the text denotes. *)
Definition persistItem : M unit :=
  fun w => (tt, with_storage_item (Some (state w)) w).

(** The [set] the store creator receives: apply the update to the state,
    then let the middleware persist. *)
Definition set_ (update : AppState.t -> AppState.t) : M unit :=
  (fun w => (tt, with_state (update (state w)) w)) ;;
  persistItem.

Definition set_user (u : option User.t) (s : AppState.t) : AppState.t :=
  {| AppState.user := u; AppState.projects := AppState.projects s;
     AppState.tasks := AppState.tasks s; AppState.theme := AppState.theme s |}.

Definition set_projects (ps : list Project.t) (s : AppState.t) : AppState.t :=
  {| AppState.user := AppState.user s; AppState.projects := ps;
     AppState.tasks := AppState.tasks s; AppState.theme := AppState.theme s |}.

Definition set_tasks (ts : list Task.t) (s : AppState.t) : AppState.t :=
  {| AppState.user := AppState.user s; AppState.projects := AppState.projects s;
     AppState.tasks := ts; AppState.theme := AppState.theme s |}.

Definition set_theme (th : Theme) (s : AppState.t) : AppState.t :=
  {| AppState.user := AppState.user s; AppState.projects := AppState.projects s;
     AppState.tasks := AppState.tasks s; AppState.theme := th |}.

(** ** The actions of the store *)

(** [u.email === email && u.password === password] *)
Definition credentials_match (email password : string) (u : Account.t) : bool :=
  (Account.email u =? email) && (Account.password u =? password).

(** [user.id || generateId()]: an absent or empty id is falsy. *)
Definition id_or_generate (id : option string) : M string :=
  match id with
  | Some i => if i =? "" then generateId else ret i
  | None => generateId
  end.

Definition login (email password : string) : M bool :=
  storedUsers <- getStoredUsers ;;
  match find (credentials_match email password) storedUsers with
  | Some user =>
      id <- id_or_generate (Account.id user) ;;
      set_ (set_user (Some {| User.id := id;
                              User.name := Account.name user;
                              User.email := Account.email user;
                              User.avatar := None |})) ;;
      ret true
  | None => ret false
  end.

Definition register (name email password : string) : M bool :=
  storedUsers <- getStoredUsers ;;
  match find (fun u => Account.email u =? email) storedUsers with
  | Some _ => ret false
  | None =>
      id <- generateId ;;
      let newUser := {| Account.id := Some id; Account.name := name;
                        Account.email := email; Account.password := password |} in
      setStoredUsers (storedUsers ++ [newUser]) ;;
      set_ (set_user (Some {| User.id := id; User.name := name;
                              User.email := email; User.avatar := None |})) ;;
      ret true
  end.

Definition logout : M unit := set_ (set_user None).

Definition addProject (project : NewProject.t) : M unit :=
  id <- generateId ;;
  createdAt <- nowISO ;;
  set_ (fun state =>
    set_projects
      (AppState.projects state ++
         [ {| Project.id := id;
              Project.name := NewProject.name project;
              Project.description := NewProject.description project;
              Project.color := NewProject.color project;
              Project.createdAt := createdAt |} ])
      state).

Definition updateProject (id : string) (project : PartialProject.t) : M unit :=
  set_ (fun state =>
    set_projects
      (map (fun p => if Project.id p =? id then spreadProject p project else p)
           (AppState.projects state))
      state).

Definition deleteProject (id : string) : M unit :=
  set_ (fun state =>
    set_tasks
      (filter (fun t => negb (Task.projectId t =? id)) (AppState.tasks state))
      (set_projects
         (filter (fun p => negb (Project.id p =? id)) (AppState.projects state))
         state)).

Definition addTask (task : NewTask.t) : M unit :=
  id <- generateId ;;
  createdAt <- nowISO ;;
  set_ (fun state =>
    set_tasks
      (AppState.tasks state ++
         [ {| Task.id := id;
              Task.projectId := NewTask.projectId task;
              Task.title := NewTask.title task;
              Task.description := NewTask.description task;
              Task.status := NewTask.status task;
              Task.priority := NewTask.priority task;
              Task.dueDate := NewTask.dueDate task;
              Task.createdAt := createdAt |} ])
      state).

Definition updateTask (id : string) (task : PartialTask.t) : M unit :=
  set_ (fun state =>
    set_tasks
      (map (fun t => if Task.id t =? id then spreadTask t task else t)
           (AppState.tasks state))
      state).

Definition deleteTask (id : string) : M unit :=
  set_ (fun state =>
    set_tasks (filter (fun t => negb (Task.id t =? id)) (AppState.tasks state)) state).

(** [newTheme === 'dark'] *)
Definition is_dark (th : Theme) : bool :=
  match th with dark => true | light => false end.

Definition toggleTheme : M unit :=
  fun w =>
    let newTheme := match AppState.theme (state w) with light => dark | dark => light end in
    (classList_toggle_dark (is_dark newTheme) ;;
     set_ (set_theme newTheme)) w.

Definition setTheme (theme : Theme) : M unit :=
  classList_toggle_dark (is_dark theme) ;;
  set_ (set_theme theme).

(** ** Start of the process *)

(** The default [merge] of the middleware, [{ ...currentState,
    ...persistedState }], on a persisted record that has the four data
    fields. *)
Definition merge (persisted current : AppState.t) : AppState.t :=
  {| AppState.user := AppState.user persisted;
     AppState.projects := AppState.projects persisted;
     AppState.tasks := AppState.tasks persisted;
     AppState.theme := AppState.theme persisted |}.

(** The callback [onRehydrateStorage] returns:
    [if (state?.theme === 'dark') classList.add('dark')]. *)
Definition onRehydrateStorage (s : AppState.t) : M unit :=
  if is_dark (AppState.theme s) then classList_toggle_dark true else ret tt.

(** Modelled from the spec: hydration by the [persist] middleware when the
    store is created ("on process start, the last snapshot is loaded back in
    full before any operation may run; if no snapshot exists, the store
    initializes to empty collections and a default theme"). *)
Definition rehydrate : M unit :=
  fun w =>
    let s := match storage_item w with
             | Some persisted => merge persisted (state w)
             | None => state w
             end in
    ((fun w' => (tt, with_state s w')) ;; onRehydrateStorage s) w.

(** A new process over the localStorage that [w] leaves behind: the store is
    created from [initialState], the document root has no ['dark'] class yet,
    and the middleware hydrates. *)
Definition reload (w : World) : World :=
  after rehydrate
    {| state := initialState; users_item := users_item w;
       storage_item := storage_item w; darkClass := false;
       oracle := oracle w; draws := draws w; ticks := ticks w |}.

(** ** The actions as one interface *)

Inductive Action : Type :=
| Login (email password : string)
| Register (name email password : string)
| Logout
| AddProject (project : NewProject.t)
| UpdateProject (id : string) (project : PartialProject.t)
| DeleteProject (id : string)
| AddTask (task : NewTask.t)
| UpdateTask (id : string) (task : PartialTask.t)
| DeleteTask (id : string)
| ToggleTheme
| SetTheme (theme : Theme).

(** What the caller gets back: [Some b] from the two boolean actions, [None]
    from the [void] ones. *)
Definition perform (a : Action) : M (option bool) :=
  match a with
  | Login email password => b <- login email password ;; ret (Some b)
  | Register name email password => b <- register name email password ;; ret (Some b)
  | Logout => logout ;; ret None
  | AddProject project => addProject project ;; ret None
  | UpdateProject id project => updateProject id project ;; ret None
  | DeleteProject id => deleteProject id ;; ret None
  | AddTask task => addTask task ;; ret None
  | UpdateTask id task => updateTask id task ;; ret None
  | DeleteTask id => deleteTask id ;; ret None
  | ToggleTheme => toggleTheme ;; ret None
  | SetTheme theme => setTheme theme ;; ret None
  end.

(** ** Vocabulary of the statements *)

(** The credential list an action reads. *)
Definition storedUsers (w : World) : list Account.t :=
  match users_item w with Some l => l | None => [] end.

(** An account matches both arguments of [login]. *)
Definition matches (email password : string) (u : Account.t) : Prop :=
  Account.email u = email /\ Account.password u = password.

(** The id [login] gives the session user for account [u] in world [w]. *)
Definition session_id (w : World) (u : Account.t) : string :=
  match Account.id u with
  | Some i => if i =? "" then random36 (oracle w) (draws w) else i
  | None => random36 (oracle w) (draws w)
  end.

(** [l1] is [l2] with some elements dropped, the rest in the same order. *)
Inductive subseq {A : Type} : list A -> list A -> Prop :=
| subseq_nil : subseq [] []
| subseq_drop : forall x l1 l2, subseq l1 l2 -> subseq l1 (x :: l2)
| subseq_keep : forall x l1 l2, subseq l1 l2 -> subseq (x :: l1) (x :: l2).

Definition Status_eq_dec (a b : Status) : {a = b} + {a <> b}.
Proof. decide equality. Defined.

Definition Priority_eq_dec (a b : Priority) : {a = b} + {a <> b}.
Proof. decide equality. Defined.

Definition Task_eq_dec (a b : Task.t) : {a = b} + {a <> b}.
Proof.
  decide equality;
    first [ apply string_dec | apply Status_eq_dec | apply Priority_eq_dec ].
Defined.

Definition Project_eq_dec (a b : Project.t) : {a = b} + {a <> b}.
Proof. decide equality; apply string_dec. Defined.

(** ** Sample data *)

Definition sample_oracle : Oracle :=
  {| random36 := fun k => match k with
                          | 0 => "k3x9q0z7a"
                          | 1 => "p81mmc2dw"
                          | _ => "zz4t0b6he"
                          end;
     isoTime := fun k => match k with
                         | 0 => "2024-05-01T09:00:00.000Z"
                         | _ => "2024-05-01T09:00:01.000Z"
                         end |}.

Definition ann : Account.t :=
  {| Account.id := Some "a1b2c3d4e"; Account.name := "Ann";
     Account.email := "ann@example.com"; Account.password := "hunter22" |}.

(** An entry without an id, as the [find] callback of [login] allows. *)
Definition bob_without_id : Account.t :=
  {| Account.id := None; Account.name := "Bob";
     Account.email := "bob@example.com"; Account.password := "s3cret!" |}.

Definition website : Project.t :=
  {| Project.id := "p1"; Project.name := "Website";
     Project.description := "Relaunch"; Project.color := "#6366f1";
     Project.createdAt := "2024-04-30T08:00:00.000Z" |}.

Definition draft : Task.t :=
  {| Task.id := "t1"; Task.projectId := "p1"; Task.title := "Draft";
     Task.description := "First draft"; Task.status := todo;
     Task.priority := high; Task.dueDate := "2024-06-01";
     Task.createdAt := "2024-04-30T08:05:00.000Z" |}.

Definition review : Task.t :=
  {| Task.id := "t2"; Task.projectId := "p2"; Task.title := "Review";
     Task.description := ""; Task.status := in_progress;
     Task.priority := low; Task.dueDate := "2024-06-02";
     Task.createdAt := "2024-04-30T08:06:00.000Z" |}.

(** A first start: nothing in localStorage. *)
Definition fresh_world : World :=
  {| state := initialState; users_item := None; storage_item := None;
     darkClass := false; oracle := sample_oracle; draws := 0; ticks := 0 |}.

(** Two registered accounts, one project, two tasks; [review] points at a
    project that is not in the collection. *)
Definition busy_world : World :=
  {| state := {| AppState.user := None; AppState.projects := [website];
                 AppState.tasks := [draft; review]; AppState.theme := light |};
     users_item := Some [ann; bob_without_id]; storage_item := None;
     darkClass := false; oracle := sample_oracle; draws := 0; ticks := 0 |}.

(** ** Invariants of the collections *)

(** No two accounts of the credential list share an email. *)
Definition unique_emails (l : list Account.t) : Prop :=
  NoDup (map Account.email l).

(** No two tasks share an id. *)
Definition unique_task_ids (s : AppState.t) : Prop :=
  NoDup (map Task.id (AppState.tasks s)).

(** Every task refers to a project of the collection. *)
Definition tasks_have_projects (s : AppState.t) : Prop :=
  forall t, In t (AppState.tasks s) ->
            exists p, In p (AppState.projects s) /\ Project.id p = Task.projectId t.

(** The ['dark'] class of the document root follows the theme. *)
Definition class_follows_theme (w : World) : Prop :=
  darkClass w = is_dark (AppState.theme (state w)).

(** ** The pages: what they compute from the store *)

(** The string a status is at run time. *)
Definition Status_string (s : Status) : string :=
  match s with
  | todo => "todo"
  | in_progress => "in-progress"
  | completed => "completed"
  end.

(** The string a priority is at run time. *)
Definition Priority_string (p : Priority) : string :=
  match p with
  | low => "low"
  | medium => "medium"
  | high => "high"
  end.

(** [t.status === 'completed'] and its two siblings. *)
Definition has_status (s : Status) (t : Task.t) : bool :=
  Status_string (Task.status t) =? Status_string s.

(** [tasks.filter((t) => t.projectId === id)] *)
Definition tasksOfProject (id : string) (tasks : list Task.t) : list Task.t :=
  filter (fun t => Task.projectId t =? id) tasks.

(** pages/Tasks.tsx *)
Module TasksPage.
Section Page.
(** [String.prototype.toLowerCase] and [String.prototype.includes]
    ([includes hay needle]), built-ins of the runtime. *)
Variable toLowerCase : string -> string.
Variable includes : string -> string -> bool.

(** The callback of [filteredTasks]. *)
Definition keeps (search statusFilter priorityFilter projectFilter : string)
  (task : Task.t) : bool :=
  let matchesSearch :=
    (search =? "")
    || includes (toLowerCase (Task.title task)) (toLowerCase search)
    || includes (toLowerCase (Task.description task)) (toLowerCase search) in
  let matchesStatus :=
    (statusFilter =? "all") || (Status_string (Task.status task) =? statusFilter) in
  let matchesPriority :=
    (priorityFilter =? "all") || (Priority_string (Task.priority task) =? priorityFilter) in
  let matchesProject :=
    (projectFilter =? "all") || (Task.projectId task =? projectFilter) in
  matchesSearch && matchesStatus && matchesPriority && matchesProject.

Definition filteredTasks (tasks : list Task.t)
  (search statusFilter priorityFilter projectFilter : string) : list Task.t :=
  filter (keeps search statusFilter priorityFilter projectFilter) tasks.
End Page.

(** The object [groups] of [groupedByStatus]. *)
Record Groups : Type := {
  g_todo : list Task.t;
  g_in_progress : list Task.t;
  g_completed : list Task.t
}.

(** [groups[task.status].push(task)] *)
Definition push (groups : Groups) (task : Task.t) : Groups :=
  match Task.status task with
  | todo =>
      {| g_todo := g_todo groups ++ [task];
         g_in_progress := g_in_progress groups;
         g_completed := g_completed groups |}
  | in_progress =>
      {| g_todo := g_todo groups;
         g_in_progress := g_in_progress groups ++ [task];
         g_completed := g_completed groups |}
  | completed =>
      {| g_todo := g_todo groups;
         g_in_progress := g_in_progress groups;
         g_completed := g_completed groups ++ [task] |}
  end.

(** [filteredTasks.forEach((task) => { groups[task.status].push(task) })]
    from three empty arrays. *)
Definition groupedByStatus (filteredTasks : list Task.t) : Groups :=
  fold_left push filteredTasks
    {| g_todo := []; g_in_progress := []; g_completed := [] |}.

(** [groupedByStatus[status]] *)
Definition group (groups : Groups) (s : Status) : list Task.t :=
  match s with
  | todo => g_todo groups
  | in_progress => g_in_progress groups
  | completed => g_completed groups
  end.

(** [projects.find((p) => p.id === projectId)] *)
Definition getProjectById (projects : list Project.t) (projectId : string) : option Project.t :=
  find (fun p => Project.id p =? projectId) projects.
End TasksPage.

(** pages/ProjectDetail.tsx *)
Module ProjectDetailPage.
(** [projects.find((p) => p.id === id)] *)
Definition project (projects : list Project.t) (id : string) : option Project.t :=
  find (fun p => Project.id p =? id) projects.

Definition projectTasks (tasks : list Task.t) (id : string) : list Task.t :=
  tasksOfProject id tasks.

Section Page.
Variable toLowerCase : string -> string.
Variable includes : string -> string -> bool.

(** The callback of [filteredTasks]. *)
Definition keeps (search statusFilter priorityFilter : string) (task : Task.t) : bool :=
  let matchesSearch :=
    (search =? "")
    || includes (toLowerCase (Task.title task)) (toLowerCase search)
    || includes (toLowerCase (Task.description task)) (toLowerCase search) in
  let matchesStatus :=
    (statusFilter =? "all") || (Status_string (Task.status task) =? statusFilter) in
  let matchesPriority :=
    (priorityFilter =? "all") || (Priority_string (Task.priority task) =? priorityFilter) in
  matchesSearch && matchesStatus && matchesPriority.

Definition filteredTasks (projectTasks : list Task.t)
  (search statusFilter priorityFilter : string) : list Task.t :=
  filter (keeps search statusFilter priorityFilter) projectTasks.
End Page.

Record Stats : Type := {
  total : nat;
  completed_count : nat;
  inProgress : nat;
  todo_count : nat
}.

Definition stats (projectTasks : list Task.t) : Stats :=
  {| total := length projectTasks;
     completed_count := length (filter (has_status completed) projectTasks);
     inProgress := length (filter (has_status in_progress) projectTasks);
     todo_count := length (filter (has_status todo) projectTasks) |}.

(** The argument [onSubmit] gives [addTask] when no task is being edited:
    the form fields and [projectId: id]. *)
Definition newTaskOf (id title description : string) (status : Status)
  (priority : Priority) (dueDate : string) : NewTask.t :=
  {| NewTask.projectId := id; NewTask.title := title;
     NewTask.description := description; NewTask.status := status;
     NewTask.priority := priority; NewTask.dueDate := dueDate |}.
End ProjectDetailPage.

(** pages/Projects.tsx *)
Module ProjectsPage.
Section Page.
Variable toLowerCase : string -> string.
Variable includes : string -> string -> bool.

Definition filteredProjects (projects : list Project.t) (search : string) : list Project.t :=
  if search =? "" then projects
  else
    let searchLower := toLowerCase search in
    filter (fun p => includes (toLowerCase (Project.name p)) searchLower
                     || includes (toLowerCase (Project.description p)) searchLower)
           projects.
End Page.

(** The two counts a project card shows. *)
Definition cardTasks (tasks : list Task.t) (p : Project.t) : list Task.t :=
  tasksOfProject (Project.id p) tasks.

Definition completedCount (tasks : list Task.t) (p : Project.t) : nat :=
  length (filter (has_status completed) (cardTasks tasks p)).
End ProjectsPage.

(** pages/Dashboard.tsx *)
Module DashboardPage.
Section Page.
(** The calls into date-fns at the moment of the render, as functions of the
    due date: [isBefore(new Date(d), new Date())],
    [isAfter(new Date(d), new Date())] and
    [isBefore(new Date(d), addDays(new Date(), 7))]; and
    [Math.round((a / b) * 100)]. *)
Variable isBeforeNow : string -> bool.
Variable isAfterNow : string -> bool.
Variable isBeforeNextWeek : string -> bool.
Variable roundPercent : nat -> nat -> nat.

Record Stats : Type := {
  totalProjects : nat;
  totalTasks : nat;
  completedTasks : nat;
  inProgressTasks : nat;
  todoTasks : nat;
  overdueTasks : nat;
  upcomingTasks : list Task.t;
  completionRate : nat
}.

Definition stats (projects : list Project.t) (tasks : list Task.t) : Stats :=
  let totalTasks := length tasks in
  let completedTasks := length (filter (has_status completed) tasks) in
  {| totalProjects := length projects;
     totalTasks := totalTasks;
     completedTasks := completedTasks;
     inProgressTasks := length (filter (has_status in_progress) tasks);
     todoTasks := length (filter (has_status todo) tasks);
     overdueTasks :=
       length (filter (fun t => negb (has_status completed t)
                                && isBeforeNow (Task.dueDate t)) tasks);
     upcomingTasks :=
       filter (fun t => negb (has_status completed t)
                        && isAfterNow (Task.dueDate t)
                        && isBeforeNextWeek (Task.dueDate t)) tasks;
     completionRate :=
       if Nat.ltb 0 totalTasks then roundPercent completedTasks totalTasks else 0 |}.
End Page.
End DashboardPage.

(** ** Navigation around the session *)

(** A call of [toast]. *)
Record Toast : Type := {
  toast_title : string;
  toast_description : string;
  toast_destructive : bool
}.

(** The store together with what the router and the toaster hold. *)
Record Browser : Type := {
  world : World;
  location : string;
  toasts : list Toast
}.

(** [onSubmit] of the login page. *)
Definition Login_onSubmit (email password : string) (b : Browser) : Browser :=
  let (success, w) := login email password (world b) in
  if success then
    {| world := w;
       location := "/dashboard";
       toasts := toasts b ++
         [ {| toast_title := "Welcome back!";
              toast_description := "You have been logged in successfully.";
              toast_destructive := false |} ] |}
  else
    {| world := w;
       location := location b;
       toasts := toasts b ++
         [ {| toast_title := "Login failed";
              toast_description := "Invalid email or password. Please try again.";
              toast_destructive := true |} ] |}.

(** The effect of [Index]: to the dashboard with a session user, to the
    login page without. *)
Definition Index_effect (b : Browser) : Browser :=
  {| world := world b;
     location := match AppState.user (state (world b)) with
                 | Some _ => "/dashboard"
                 | None => "/login"
                 end;
     toasts := toasts b |}.

(** The effect of [MainLayout]: [if (!user) navigate("/login")]. *)
Definition MainLayout_effect (b : Browser) : Browser :=
  match AppState.user (state (world b)) with
  | Some _ => b
  | None => {| world := world b; location := "/login"; toasts := toasts b |}
  end.

(** [if (!user) return null]: whether [MainLayout] renders its children. *)
Definition MainLayout_renders (b : Browser) : bool :=
  match AppState.user (state (world b)) with
  | Some _ => true
  | None => false
  end.

(** The sidebar's sign-out button: [onClick={logout}]. *)
Definition Sidebar_logout (b : Browser) : Browser :=
  {| world := after logout (world b); location := location b; toasts := toasts b |}.

(** * Properties *)

(** ** Shared lemmas *)

Lemma find_first (A : Type) (f : A -> bool) (l : list A) (x : A) :
  find f l = Some x ->
  exists l1 l2, l = l1 ++ x :: l2 /\ f x = true /\ (forall y, In y l1 -> f y = false).
Proof.
  induction l as [|a l IH]; simpl; [discriminate|].
  destruct (f a) eqn:Fa.
  - intros [= ->]. exists [], l. repeat split; [exact Fa | intros y []].
  - intros H. destruct (IH H) as (l1 & l2 & -> & Fx & Hl1).
    exists (a :: l1), l2. repeat split; [exact Fx|].
    intros y [<- | Hy]; [exact Fa | exact (Hl1 y Hy)].
Qed.

Lemma credentials_match_iff (email password : string) (u : Account.t) :
  credentials_match email password u = true <-> matches email password u.
Proof.
  unfold credentials_match, matches.
  rewrite andb_true_iff, !String.eqb_eq. tauto.
Qed.

Lemma find_credentials_none (email password : string) (l : list Account.t) :
  (forall u, In u l -> ~ matches email password u) ->
  find (credentials_match email password) l = None.
Proof.
  intros Hno. destruct (find _ l) as [u|] eqn:F; [|reflexivity].
  apply find_some in F. destruct F as [Hin Hm].
  apply credentials_match_iff in Hm. destruct (Hno u Hin Hm).
Qed.

Lemma find_credentials_some (email password : string) (l : list Account.t) :
  (exists u, In u l /\ matches email password u) ->
  exists u, find (credentials_match email password) l = Some u.
Proof.
  intros (u & Hin & Hm). destruct (find _ l) as [v|] eqn:F; [now exists v|].
  apply credentials_match_iff in Hm.
  rewrite (find_none _ _ F u Hin) in Hm. discriminate.
Qed.

(** What [login] does once [find] has returned an account. *)
Lemma login_found (w : World) (email password : string) (u : Account.t) :
  find (credentials_match email password) (storedUsers w) = Some u ->
  result (login email password) w = true /\
  AppState.user (state (after (login email password) w)) =
    Some {| User.id := session_id w u; User.name := Account.name u;
            User.email := Account.email u; User.avatar := None |}.
Proof.
  unfold result, after, login, bind, getStoredUsers, storedUsers, session_id.
  intros F. simpl. rewrite F. unfold id_or_generate.
  destruct (Account.id u) as [i|]; [destruct (i =? "")|]; simpl; auto.
Qed.

(** What [login] does once [find] has returned [undefined]. *)
Lemma login_not_found (w : World) (email password : string) :
  find (credentials_match email password) (storedUsers w) = None ->
  login email password w = (false, w).
Proof.
  unfold login, bind, getStoredUsers, storedUsers. intros F. simpl. rewrite F.
  reflexivity.
Qed.

(** ** login *)

(** C1 (as amended).  When some account of the credential list has exactly
    the given email and password, [login] returns [true] and the session user
    takes the name and email of the first such account; its id is that
    account's id when the account has a non-empty one, and a newly generated
    id otherwise.  When no account matches both, [login] returns [false]. *)
Theorem login_first_match (w : World) (email password : string) :
  ((exists u, In u (storedUsers w) /\ matches email password u) ->
   result (login email password) w = true /\
   exists before u rest,
     storedUsers w = before ++ u :: rest /\
     matches email password u /\
     (forall v, In v before -> ~ matches email password v) /\
     (forall i, Account.id u = Some i -> i <> "" -> session_id w u = i) /\
     (Account.id u = None \/ Account.id u = Some "" ->
      session_id w u = random36 (oracle w) (draws w)) /\
     AppState.user (state (after (login email password) w)) =
       Some {| User.id := session_id w u; User.name := Account.name u;
               User.email := Account.email u; User.avatar := None |}) /\
  ((forall u, In u (storedUsers w) -> ~ matches email password u) ->
   result (login email password) w = false).
Proof.
  split.
  - intros Hex. destruct (find_credentials_some email password _ Hex) as [u F].
    destruct (login_found w email password u F) as [Hr Hu].
    split; [exact Hr|].
    destruct (find_first _ _ _ _ F) as (l1 & l2 & Hl & Hm & Hl1).
    exists l1, u, l2. repeat split.
    + exact Hl.
    + apply credentials_match_iff in Hm. apply Hm.
    + apply credentials_match_iff in Hm. apply Hm.
    + intros v Hv Hmv. apply credentials_match_iff in Hmv.
      rewrite (Hl1 v Hv) in Hmv. discriminate.
    + intros i Hi Hne. unfold session_id. rewrite Hi.
      apply String.eqb_neq in Hne. now rewrite Hne.
    + intros [Hi | Hi]; unfold session_id; rewrite Hi; reflexivity.
    + exact Hu.
  - intros Hno. unfold result.
    now rewrite (login_not_found w email password (find_credentials_none email password _ Hno)).
Qed.

(** Both halves of [login_first_match] on [busy_world]: Ann's password opens
    a session with her stored id, a wrong password is refused. *)
Lemma login_first_match_witness :
  (result (login "ann@example.com" "hunter22") busy_world = true /\
   AppState.user (state (after (login "ann@example.com" "hunter22") busy_world)) =
     Some {| User.id := "a1b2c3d4e"; User.name := "Ann";
             User.email := "ann@example.com"; User.avatar := None |}) /\
  result (login "ann@example.com" "hunter23") busy_world = false.
Proof.
  destruct (login_first_match busy_world "ann@example.com" "hunter22") as [Hyes _].
  destruct (login_first_match busy_world "ann@example.com" "hunter23") as [_ Hno].
  split.
  - destruct Hyes as [Hr _].
    + exists ann. split; [simpl; auto | split; reflexivity].
    + split; [exact Hr | reflexivity].
  - apply Hno. intros u Hin [He Hp]. simpl in Hin.
    destruct Hin as [<- | [<- | []]]; simpl in *; discriminate.
Defined.

(** C1 (as stated) fails: Bob's entry has no id, [login] accepts his
    credentials, and the session user's id is the generated ["k3x9q0z7a"],
    which is no field of the account. *)
Lemma login_without_id_counterexample :
  In bob_without_id (storedUsers busy_world) /\
  matches "bob@example.com" "s3cret!" bob_without_id /\
  result (login "bob@example.com" "s3cret!") busy_world = true /\
  AppState.user (state (after (login "bob@example.com" "s3cret!") busy_world)) =
    Some {| User.id := "k3x9q0z7a"; User.name := "Bob";
            User.email := "bob@example.com"; User.avatar := None |} /\
  ~ (exists s,
       AppState.user (state (after (login "bob@example.com" "s3cret!") busy_world)) = Some s /\
       Some (User.id s) = Account.id bob_without_id /\
       User.name s = Account.name bob_without_id /\
       User.email s = Account.email bob_without_id).
Proof.
  split; [simpl; auto|].
  split; [split; reflexivity|].
  split; [reflexivity|].
  split; [reflexivity|].
  intros (s & _ & Hid & _). discriminate Hid.
Qed.

(** C10.  When no account matches both arguments, [login] returns [false]
    and changes nothing: the session user, the projects, the tasks and the
    theme are as before, and so are both localStorage items. *)
Theorem login_failure_atomic (w : World) (email password : string) :
  (forall u, In u (storedUsers w) -> ~ matches email password u) ->
  result (login email password) w = false /\
  after (login email password) w = w /\
  AppState.user (state (after (login email password) w)) = AppState.user (state w) /\
  AppState.projects (state (after (login email password) w)) = AppState.projects (state w) /\
  AppState.tasks (state (after (login email password) w)) = AppState.tasks (state w) /\
  AppState.theme (state (after (login email password) w)) = AppState.theme (state w).
Proof.
  intros Hno. unfold result, after.
  rewrite (login_not_found w email password (find_credentials_none email password _ Hno)).
  simpl. repeat split.
Qed.

(** [login_failure_atomic] on [busy_world] with a wrong password for Ann. *)
Lemma login_failure_atomic_witness :
  result (login "ann@example.com" "hunter23") busy_world = false /\
  after (login "ann@example.com" "hunter23") busy_world = busy_world.
Proof.
  destruct (login_failure_atomic busy_world "ann@example.com" "hunter23")
    as (Hr & Hw & _).
  - intros u Hin [He Hp]. simpl in Hin.
    destruct Hin as [<- | [<- | []]]; simpl in *; discriminate.
  - split; [exact Hr | exact Hw].
Defined.

(** ** register *)

Lemma find_email_some (email : string) (l : list Account.t) :
  (exists u, In u l /\ Account.email u = email) ->
  exists u, find (fun u => Account.email u =? email) l = Some u.
Proof.
  intros (u & Hin & He). destruct (find _ l) as [v|] eqn:F; [now exists v|].
  pose proof (find_none _ _ F u Hin) as Hf. simpl in Hf.
  apply String.eqb_neq in Hf. contradiction.
Qed.

Lemma find_email_none (email : string) (l : list Account.t) :
  (forall u, In u l -> Account.email u <> email) ->
  find (fun u => Account.email u =? email) l = None.
Proof.
  intros Hno. destruct (find _ l) as [u|] eqn:F; [|reflexivity].
  apply find_some in F. destruct F as [Hin He].
  apply String.eqb_eq in He. destruct (Hno u Hin He).
Qed.

(** C2.  When the credential list already has an account with the given
    email, [register] returns [false] and changes nothing: the credential
    list (hence the earlier account) and the session user stay as they were.
    When no account has that email, [register] returns [true], the
    credential list grows at its end by exactly one account that carries the
    generated id and the three arguments, and the session user becomes that
    account's id, name and email. *)
Theorem register_unique_email (w : World) (name email password : string) :
  ((exists u, In u (storedUsers w) /\ Account.email u = email) ->
   result (register name email password) w = false /\
   after (register name email password) w = w /\
   storedUsers (after (register name email password) w) = storedUsers w /\
   AppState.user (state (after (register name email password) w)) =
     AppState.user (state w)) /\
  ((forall u, In u (storedUsers w) -> Account.email u <> email) ->
   let id := random36 (oracle w) (draws w) in
   result (register name email password) w = true /\
   storedUsers (after (register name email password) w) =
     storedUsers w ++
       [ {| Account.id := Some id; Account.name := name;
            Account.email := email; Account.password := password |} ] /\
   length (storedUsers (after (register name email password) w)) =
     S (length (storedUsers w)) /\
   AppState.user (state (after (register name email password) w)) =
     Some {| User.id := id; User.name := name; User.email := email;
             User.avatar := None |}).
Proof.
  split.
  - intros Hex. destruct (find_email_some email _ Hex) as [u F].
    assert (E : register name email password w = (false, w)).
    { unfold register, bind, getStoredUsers. fold (storedUsers w).
      simpl. rewrite F. reflexivity. }
    unfold result, after. rewrite E. simpl. repeat split.
  - intros Hno id. pose proof (find_email_none email _ Hno) as F.
    unfold result, after, register, bind, getStoredUsers.
    fold (storedUsers w). simpl. rewrite F. simpl.
    repeat split. unfold storedUsers at 1. simpl.
    rewrite length_app. simpl. lia.
Qed.

(** Both halves of [register_unique_email] on [busy_world]: Ann's email is
    taken, Cy's is not. *)
Lemma register_unique_email_witness :
  (result (register "Ann II" "ann@example.com" "another1") busy_world = false /\
   after (register "Ann II" "ann@example.com" "another1") busy_world = busy_world) /\
  (result (register "Cy" "cy@example.com" "pa55word") busy_world = true /\
   storedUsers (after (register "Cy" "cy@example.com" "pa55word") busy_world) =
     [ann; bob_without_id;
      {| Account.id := Some "k3x9q0z7a"; Account.name := "Cy";
         Account.email := "cy@example.com"; Account.password := "pa55word" |}]).
Proof.
  destruct (register_unique_email busy_world "Ann II" "ann@example.com" "another1")
    as [Htaken _].
  destruct (register_unique_email busy_world "Cy" "cy@example.com" "pa55word")
    as [_ Hfree].
  split.
  - destruct Htaken as (Hr & Hw & _).
    + exists ann. split; [simpl; auto | reflexivity].
    + split; [exact Hr | exact Hw].
  - destruct Hfree as (Hr & Hl & _).
    + intros u Hin He. simpl in Hin.
      destruct Hin as [<- | [<- | []]]; simpl in He; discriminate.
    + split; [exact Hr | exact Hl].
Defined.

(** ** Lists under [filter] and [map] *)

Lemma filter_subseq (A : Type) (f : A -> bool) (l : list A) :
  subseq (filter f l) l.
Proof.
  induction l as [|a l IH]; simpl; [constructor|].
  destruct (f a); constructor; exact IH.
Qed.

Lemma count_occ_filter_kept (A : Type) (dec : forall a b : A, {a = b} + {a <> b})
  (f : A -> bool) (l : list A) (x : A) :
  f x = true -> count_occ dec (filter f l) x = count_occ dec l x.
Proof.
  intros Fx. induction l as [|a l IH]; simpl; [reflexivity|].
  destruct (f a) eqn:Fa; simpl.
  - destruct (dec a x); now rewrite IH.
  - destruct (dec a x) as [->|]; [congruence | exact IH].
Qed.

Lemma filter_all_kept (A : Type) (f : A -> bool) (l : list A) :
  (forall x, In x l -> f x = true) -> filter f l = l.
Proof.
  induction l as [|a l IH]; simpl; intros H; [reflexivity|].
  rewrite (H a (or_introl eq_refl)). f_equal. apply IH.
  intros x Hx. apply H. now right.
Qed.

Lemma map_none_changed (A : Type) (test : A -> bool) (g : A -> A) (l : list A) :
  (forall x, In x l -> test x = false) ->
  map (fun x => if test x then g x else x) l = l.
Proof.
  induction l as [|a l IH]; simpl; intros H; [reflexivity|].
  rewrite (H a (or_introl eq_refl)). f_equal. apply IH.
  intros x Hx. apply H. now right.
Qed.

Lemma neq_negb_eqb (a b : string) : a <> b <-> negb (a =? b) = true.
Proof.
  rewrite negb_true_iff. symmetry. apply String.eqb_neq.
Qed.

(** The state after an action that is one call of [set]. *)
Lemma state_after_set (update : AppState.t -> AppState.t) (w : World) :
  state (after (set_ update) w) = update (state w).
Proof. reflexivity. Qed.

(** ** deleteProject *)

(** C3.  [deleteProject id] leaves in the project collection exactly the
    projects whose id differs from [id], and in the task collection exactly
    the tasks whose [projectId] differs from [id]; those tasks stay as they
    were: the new collection is the old one with elements dropped (same
    order), and each remaining task occurs as often as before. *)
Theorem deleteProject_cascade (w : World) (id : string) :
  let s := state w in
  let s' := state (after (deleteProject id) w) in
  (forall p, In p (AppState.projects s') <->
             In p (AppState.projects s) /\ Project.id p <> id) /\
  (forall t, In t (AppState.tasks s') <->
             In t (AppState.tasks s) /\ Task.projectId t <> id) /\
  subseq (AppState.tasks s') (AppState.tasks s) /\
  (forall t, Task.projectId t <> id ->
             count_occ Task_eq_dec (AppState.tasks s') t =
             count_occ Task_eq_dec (AppState.tasks s) t) /\
  subseq (AppState.projects s') (AppState.projects s) /\
  (forall p, Project.id p <> id ->
             count_occ Project_eq_dec (AppState.projects s') p =
             count_occ Project_eq_dec (AppState.projects s) p).
Proof.
  intros s s'. subst s s'. unfold deleteProject. rewrite state_after_set. simpl.
  split; [|split; [|split; [|split; [|split]]]].
  - intros p. rewrite filter_In, <- neq_negb_eqb. reflexivity.
  - intros t. rewrite filter_In, <- neq_negb_eqb. reflexivity.
  - apply filter_subseq.
  - intros t Hne. apply count_occ_filter_kept. now apply neq_negb_eqb.
  - apply filter_subseq.
  - intros p Hne. apply count_occ_filter_kept. now apply neq_negb_eqb.
Qed.

(** [deleteProject_cascade] on [busy_world]: deleting ["p1"] removes the
    project [website] and its task [draft], and keeps [review]. *)
Lemma deleteProject_cascade_witness :
  ~ In website (AppState.projects (state (after (deleteProject "p1") busy_world))) /\
  ~ In draft (AppState.tasks (state (after (deleteProject "p1") busy_world))) /\
  In review (AppState.tasks (state (after (deleteProject "p1") busy_world))) /\
  count_occ Task_eq_dec (AppState.tasks (state (after (deleteProject "p1") busy_world))) review = 1.
Proof.
  destruct (deleteProject_cascade busy_world "p1") as (Hp & Ht & _ & Hc & _).
  split; [|split; [|split]].
  - intros H. apply Hp in H. destruct H as [_ H]. now apply H.
  - intros H. apply Ht in H. destruct H as [_ H]. now apply H.
  - apply Ht. split; [simpl; auto | discriminate].
  - rewrite (Hc review); [reflexivity | discriminate].
Defined.

(** ** updateTask *)

(** [t] with its status replaced, every other field copied. *)
Lemma spreadTask_only_status (t : Task.t) (s : Status) :
  spreadTask t (PartialTask.only_status s) =
  {| Task.id := Task.id t; Task.projectId := Task.projectId t;
     Task.title := Task.title t; Task.description := Task.description t;
     Task.status := s; Task.priority := Task.priority t;
     Task.dueDate := Task.dueDate t; Task.createdAt := Task.createdAt t |}.
Proof. reflexivity. Qed.

(** C4.  [updateTask id { status: s }] keeps the length and the positions
    of the task collection; at every position, a task with the given id
    comes back with status [s] and all its other fields as they were, and a
    task with another id comes back identical.  Nothing else of the state
    changes. *)
Theorem updateTask_status_frame (w : World) (id : string) (s : Status) :
  let ts := AppState.tasks (state w) in
  let w' := after (updateTask id (PartialTask.only_status s)) w in
  let ts' := AppState.tasks (state w') in
  length ts' = length ts /\
  (forall i t, nth_error ts i = Some t ->
     (Task.id t = id ->
      nth_error ts' i =
        Some {| Task.id := Task.id t; Task.projectId := Task.projectId t;
                Task.title := Task.title t; Task.description := Task.description t;
                Task.status := s; Task.priority := Task.priority t;
                Task.dueDate := Task.dueDate t; Task.createdAt := Task.createdAt t |}) /\
     (Task.id t <> id -> nth_error ts' i = Some t)) /\
  AppState.projects (state w') = AppState.projects (state w) /\
  AppState.user (state w') = AppState.user (state w) /\
  AppState.theme (state w') = AppState.theme (state w).
Proof.
  intros ts w' ts'. subst ts w' ts'. unfold updateTask.
  rewrite state_after_set. simpl.
  split; [apply length_map|]. split; [|repeat split].
  intros i t Hi. rewrite nth_error_map, Hi. simpl. split.
  - intros E. apply String.eqb_eq in E. rewrite E. reflexivity.
  - intros E. apply String.eqb_neq in E. rewrite E. reflexivity.
Qed.

(** [updateTask_status_frame] on [busy_world]: completing ["t1"] rewrites
    the status of [draft] at position 0 and returns [review] at position 1
    as it was. *)
Lemma updateTask_status_frame_witness :
  nth_error (AppState.tasks (state (after (updateTask "t1" (PartialTask.only_status completed)) busy_world))) 0 =
    Some {| Task.id := "t1"; Task.projectId := "p1"; Task.title := "Draft";
            Task.description := "First draft"; Task.status := completed;
            Task.priority := high; Task.dueDate := "2024-06-01";
            Task.createdAt := "2024-04-30T08:05:00.000Z" |} /\
  nth_error (AppState.tasks (state (after (updateTask "t1" (PartialTask.only_status completed)) busy_world))) 1 =
    Some review.
Proof.
  destruct (updateTask_status_frame busy_world "t1" completed) as (_ & H & _).
  split.
  - destruct (H 0 draft eq_refl) as [Hsame _]. apply Hsame. reflexivity.
  - destruct (H 1 review eq_refl) as [_ Hother]. apply Hother. discriminate.
Defined.

(** ** Actions on an id that is not there *)

(** C5 (as amended).  For an id that no project has, [updateProject] leaves
    the whole state as it was, and [deleteProject] leaves the project
    collection as it was and keeps exactly the tasks whose [projectId]
    differs from the id, so the task collection too is as it was when no
    task refers to the id.  For an id that no task has, [updateTask] and
    [deleteTask] leave the whole state as it was.  All four return normally
    (their result is the unit value). *)
Theorem absent_id_is_noop (w : World) (id : string) :
  ((forall p, In p (AppState.projects (state w)) -> Project.id p <> id) ->
   (forall project,
      updateProject id project w = (tt, after (updateProject id project) w) /\
      state (after (updateProject id project) w) = state w) /\
   deleteProject id w = (tt, after (deleteProject id) w) /\
   AppState.projects (state (after (deleteProject id) w)) = AppState.projects (state w) /\
   (forall t, In t (AppState.tasks (state (after (deleteProject id) w))) <->
              In t (AppState.tasks (state w)) /\ Task.projectId t <> id) /\
   ((forall t, In t (AppState.tasks (state w)) -> Task.projectId t <> id) ->
    state (after (deleteProject id) w) = state w)) /\
  ((forall t, In t (AppState.tasks (state w)) -> Task.id t <> id) ->
   (forall task,
      updateTask id task w = (tt, after (updateTask id task) w) /\
      state (after (updateTask id task) w) = state w) /\
   deleteTask id w = (tt, after (deleteTask id) w) /\
   state (after (deleteTask id) w) = state w).
Proof.
  split.
  - intros Hp.
    assert (Fp : filter (fun p => negb (Project.id p =? id))
                   (AppState.projects (state w)) = AppState.projects (state w)).
    { apply filter_all_kept. intros p Hin. now apply neq_negb_eqb, Hp. }
    split; [|split; [|split; [|split]]].
    + intros project. split; [reflexivity|].
      unfold updateProject. rewrite state_after_set.
      rewrite map_none_changed.
      * now destruct (state w).
      * intros p Hin. now apply String.eqb_neq, Hp.
    + reflexivity.
    + unfold deleteProject. rewrite state_after_set. simpl. exact Fp.
    + intros t. unfold deleteProject. rewrite state_after_set. simpl.
      rewrite filter_In, <- neq_negb_eqb. reflexivity.
    + intros Ht. unfold deleteProject. rewrite state_after_set.
      rewrite Fp, filter_all_kept.
      * now destruct (state w).
      * intros t Hin. now apply neq_negb_eqb, Ht.
  - intros Ht. split; [|split].
    + intros task. split; [reflexivity|].
      unfold updateTask. rewrite state_after_set.
      rewrite map_none_changed.
      * now destruct (state w).
      * intros t Hin. now apply String.eqb_neq, Ht.
    + reflexivity.
    + unfold deleteTask. rewrite state_after_set.
      rewrite filter_all_kept.
      * now destruct (state w).
      * intros t Hin. now apply neq_negb_eqb, Ht.
Qed.

(** [absent_id_is_noop] on [busy_world] at the id ["nope"], which no project
    and no task has and to which no task refers. *)
Lemma absent_id_is_noop_witness :
  state (after (updateProject "nope" PartialProject.empty) busy_world) = state busy_world /\
  state (after (deleteProject "nope") busy_world) = state busy_world /\
  state (after (updateTask "nope" (PartialTask.only_status completed)) busy_world) = state busy_world /\
  state (after (deleteTask "nope") busy_world) = state busy_world.
Proof.
  destruct (absent_id_is_noop busy_world "nope") as [Hproj Htask].
  assert (Hp : forall p, In p (AppState.projects (state busy_world)) -> Project.id p <> "nope").
  { intros p [<- | []]. discriminate. }
  assert (Ht : forall t, In t (AppState.tasks (state busy_world)) -> Task.id t <> "nope").
  { intros t [<- | [<- | []]]; discriminate. }
  assert (Hr : forall t, In t (AppState.tasks (state busy_world)) -> Task.projectId t <> "nope").
  { intros t [<- | [<- | []]]; discriminate. }
  destruct (Hproj Hp) as (Hup & _ & _ & _ & Hdel).
  destruct (Htask Ht) as (Hut & _ & Hdt).
  split; [apply Hup | split; [apply Hdel, Hr | split; [apply Hut | exact Hdt]]].
Defined.

(** C5 (as stated) fails for [deleteProject]: no project of [busy_world] has
    the id ["p2"], yet [deleteProject "p2"] changes the task collection,
    because the task [review] refers to that id. *)
Lemma deleteProject_absent_counterexample :
  (forall p, In p (AppState.projects (state busy_world)) -> Project.id p <> "p2") /\
  AppState.tasks (state busy_world) = [draft; review] /\
  AppState.tasks (state (after (deleteProject "p2") busy_world)) = [draft] /\
  AppState.tasks (state (after (deleteProject "p2") busy_world)) <>
    AppState.tasks (state busy_world).
Proof.
  split; [intros p [<- | []]; discriminate|].
  split; [reflexivity|]. split; [reflexivity|]. discriminate.
Qed.

(** ** addProject and addTask *)

(** C8.  [addProject] puts exactly one new project at the end of the
    project collection, made of the supplied fields, the generated id and
    the clock reading as [createdAt]; [addTask] does the same on the task
    collection.  The entities that were there come first, in their order,
    and the rest of the state is as it was. *)
Theorem add_appends_one (w : World) (project : NewProject.t) (task : NewTask.t) :
  let id := random36 (oracle w) (draws w) in
  let now := isoTime (oracle w) (ticks w) in
  let sp := state (after (addProject project) w) in
  let st := state (after (addTask task) w) in
  (AppState.projects sp =
     AppState.projects (state w) ++
       [ {| Project.id := id;
            Project.name := NewProject.name project;
            Project.description := NewProject.description project;
            Project.color := NewProject.color project;
            Project.createdAt := now |} ] /\
   length (AppState.projects sp) = S (length (AppState.projects (state w))) /\
   firstn (length (AppState.projects (state w))) (AppState.projects sp) =
     AppState.projects (state w) /\
   AppState.tasks sp = AppState.tasks (state w) /\
   AppState.user sp = AppState.user (state w) /\
   AppState.theme sp = AppState.theme (state w)) /\
  (AppState.tasks st =
     AppState.tasks (state w) ++
       [ {| Task.id := id;
            Task.projectId := NewTask.projectId task;
            Task.title := NewTask.title task;
            Task.description := NewTask.description task;
            Task.status := NewTask.status task;
            Task.priority := NewTask.priority task;
            Task.dueDate := NewTask.dueDate task;
            Task.createdAt := now |} ] /\
   length (AppState.tasks st) = S (length (AppState.tasks (state w))) /\
   firstn (length (AppState.tasks (state w))) (AppState.tasks st) =
     AppState.tasks (state w) /\
   AppState.projects st = AppState.projects (state w) /\
   AppState.user st = AppState.user (state w) /\
   AppState.theme st = AppState.theme (state w)).
Proof.
  intros id now sp st. subst id now sp st. simpl.
  repeat split.
  - rewrite length_app. simpl. lia.
  - rewrite firstn_app, Nat.sub_diag, firstn_all. simpl. apply app_nil_r.
  - rewrite length_app. simpl. lia.
  - rewrite firstn_app, Nat.sub_diag, firstn_all. simpl. apply app_nil_r.
Qed.

(** ** toggleTheme and setTheme *)

(** C9.  [toggleTheme] turns ['light'] into ['dark'] and ['dark'] into
    ['light'], so two calls give back the theme (and the whole state) they
    started from; [setTheme t] makes the theme [t].  Both leave the other
    fields alone and set the ['dark'] class of the document root to match. *)
Theorem theme_toggle_involution (w : World) :
  AppState.theme (state (after toggleTheme w)) =
    match AppState.theme (state w) with light => dark | dark => light end /\
  AppState.theme (state (after toggleTheme (after toggleTheme w))) =
    AppState.theme (state w) /\
  state (after toggleTheme (after toggleTheme w)) = state w /\
  darkClass (after toggleTheme w) = is_dark (AppState.theme (state (after toggleTheme w))) /\
  (forall t,
     AppState.theme (state (after (setTheme t) w)) = t /\
     darkClass (after (setTheme t) w) = is_dark t /\
     AppState.user (state (after (setTheme t) w)) = AppState.user (state w) /\
     AppState.projects (state (after (setTheme t) w)) = AppState.projects (state w) /\
     AppState.tasks (state (after (setTheme t) w)) = AppState.tasks (state w)).
Proof.
  destruct w as [[u ps ts th] ui si dc o d k].
  destruct th; simpl; repeat split.
Qed.

(** ** Persistence *)

(** C6.  Saving the state as the snapshot and starting again from that
    localStorage, with no action in between, gives back the same state: the
    same session user, projects, tasks and theme. *)
Theorem persist_reload_roundtrip (w : World) :
  let w' := reload (after persistItem w) in
  AppState.user (state w') = AppState.user (state w) /\
  AppState.projects (state w') = AppState.projects (state w) /\
  AppState.tasks (state w') = AppState.tasks (state w) /\
  AppState.theme (state w') = AppState.theme (state w) /\
  state w' = state w /\
  darkClass w' = is_dark (AppState.theme (state w)).
Proof.
  destruct w as [[u ps ts th] ui si dc o d k].
  unfold reload, after, rehydrate, persistItem, bind, onRehydrateStorage. simpl.
  destruct th; simpl; repeat split.
Qed.

(** Every action other than [login] and [register] returns [None]. *)
Lemma perform_false_is_auth (a : Action) (w : World) :
  result (perform a) w = Some false ->
  (exists email password, a = Login email password) \/
  (exists name email password, a = Register name email password).
Proof.
  destruct a; try (intros H; discriminate H); intros _; eauto.
Qed.

Lemma login_cases (email password : string) (w : World) :
  login email password w = (false, w) \/
  (result (login email password) w = true /\
   storage_item (after (login email password) w) =
     Some (state (after (login email password) w))).
Proof.
  destruct (find (credentials_match email password) (storedUsers w)) as [u|] eqn:F.
  - right. unfold result, after, login, bind, getStoredUsers.
    fold (storedUsers w). simpl. rewrite F. unfold id_or_generate.
    destruct (Account.id u) as [i|]; [destruct (i =? "")|]; simpl; auto.
  - left. now apply login_not_found.
Qed.

Lemma register_cases (name email password : string) (w : World) :
  register name email password w = (false, w) \/
  (result (register name email password) w = true /\
   storage_item (after (register name email password) w) =
     Some (state (after (register name email password) w))).
Proof.
  unfold result, after, register, bind, getStoredUsers. simpl.
  destruct (find _ _); simpl; auto.
Qed.

(** C7 (as amended).  Every action that reaches a [set], that is every
    action except a [login] or [register] that returns [false], leaves under
    ['promanage-storage'] one snapshot equal to the whole in-memory state
    (session user, projects, tasks, theme), whatever was stored before.  A
    [login] or [register] that returns [false] writes nothing and leaves the
    world, snapshot included, as it was.  Hence a snapshot that equals the
    state before an action equals the state after it. *)
Theorem set_persists_snapshot (a : Action) (w : World) :
  let w' := after (perform a) w in
  (result (perform a) w <> Some false -> storage_item w' = Some (state w')) /\
  (result (perform a) w = Some false -> w' = w) /\
  (storage_item w = Some (state w) -> storage_item w' = Some (state w')).
Proof.
  intros w'. subst w'.
  assert (H : (result (perform a) w <> Some false /\
               storage_item (after (perform a) w) = Some (state (after (perform a) w))) \/
              (result (perform a) w = Some false /\ after (perform a) w = w)).
  { destruct a; try (left; split; [discriminate | reflexivity]).
    - unfold result, after. simpl. unfold bind.
      destruct (login_cases email password w) as [E | [Hr Hs]].
      + right. rewrite E. simpl. auto.
      + left. unfold result, after in Hr, Hs.
        destruct (login email password w) as [b w1]. simpl in *. subst b.
        split; [discriminate | exact Hs].
    - unfold result, after. simpl. unfold bind.
      destruct (register_cases name email password w) as [E | [Hr Hs]].
      + right. rewrite E. simpl. auto.
      + left. unfold result, after in Hr, Hs.
        destruct (register name email password w) as [b w1]. simpl in *. subst b.
        split; [discriminate | exact Hs]. }
  destruct H as [[Hne Hs] | [He Hw]].
  - split; [auto | split; [contradiction | auto]].
  - split; [contradiction | split; [auto | rewrite Hw; auto]].
Qed.

(** [set_persists_snapshot] on [fresh_world]: [logout] writes the snapshot,
    a refused [login] leaves the world alone. *)
Lemma set_persists_snapshot_witness :
  storage_item (after (perform Logout) fresh_world) =
    Some (state (after (perform Logout) fresh_world)) /\
  after (perform (Login "ann@example.com" "hunter22")) fresh_world = fresh_world.
Proof.
  destruct (set_persists_snapshot Logout fresh_world) as (Hset & _ & _).
  destruct (set_persists_snapshot (Login "ann@example.com" "hunter22") fresh_world)
    as (_ & Hfail & _).
  split; [apply Hset; discriminate | apply Hfail; reflexivity].
Defined.

(** C7 (as stated) fails: on a first start nothing is stored, a [login] that
    finds no account returns [false] without reaching [set], and afterwards
    there is still no snapshot, so the stored snapshot is not the in-memory
    state. *)
Lemma refused_login_counterexample :
  reload fresh_world = fresh_world /\
  result (perform (Login "ann@example.com" "hunter22")) fresh_world = Some false /\
  storage_item (after (perform (Login "ann@example.com" "hunter22")) fresh_world) = None /\
  storage_item (after (perform (Login "ann@example.com" "hunter22")) fresh_world) <>
    Some (state (after (perform (Login "ann@example.com" "hunter22")) fresh_world)).
Proof.
  split; [reflexivity|]. split; [reflexivity|]. split; [reflexivity|]. discriminate.
Qed.

(** * Further properties of the store *)

(** ** The credential list over time *)

Lemma find_app_skip (A : Type) (f : A -> bool) (l l' : list A) :
  (forall x, In x l -> f x = false) -> find f (l ++ l') = find f l'.
Proof.
  induction l as [|a l IH]; simpl; intros H; [reflexivity|].
  rewrite (H a (or_introl eq_refl)). apply IH. intros x Hx. apply H. now right.
Qed.

(** The world a successful [register] leaves. *)
Lemma register_fresh (w : World) (name email password : string) :
  find (fun u => Account.email u =? email) (storedUsers w) = None ->
  let id := random36 (oracle w) (draws w) in
  let s := set_user (Some {| User.id := id; User.name := name;
                             User.email := email; User.avatar := None |}) (state w) in
  register name email password w =
    (true,
     {| state := s;
        users_item := Some (storedUsers w ++
                              [ {| Account.id := Some id; Account.name := name;
                                   Account.email := email; Account.password := password |} ]);
        storage_item := Some s;
        darkClass := darkClass w; oracle := oracle w;
        draws := S (draws w); ticks := ticks w |}).
Proof.
  intros F. unfold register, bind, getStoredUsers. fold (storedUsers w).
  simpl. rewrite F. reflexivity.
Qed.

(** A [register] on an email that [find] sees returns before any write. *)
Lemma register_taken (w : World) (name email password : string) (u : Account.t) :
  find (fun u => Account.email u =? email) (storedUsers w) = Some u ->
  register name email password w = (false, w).
Proof.
  intros F. unfold register, bind, getStoredUsers. fold (storedUsers w).
  simpl. rewrite F. reflexivity.
Qed.

(** What [login] leaves alone, whether it succeeds or not. *)
Lemma login_frame (w : World) (email password : string) :
  let w' := after (login email password) w in
  users_item w' = users_item w /\
  AppState.projects (state w') = AppState.projects (state w) /\
  AppState.tasks (state w') = AppState.tasks (state w) /\
  AppState.theme (state w') = AppState.theme (state w) /\
  darkClass w' = darkClass w /\
  ticks w' = ticks w.
Proof.
  unfold after, login, bind, getStoredUsers. simpl.
  destruct (find _ _) as [u|]; simpl; [|repeat split].
  unfold id_or_generate.
  destruct (Account.id u) as [i|]; [destruct (i =? "")|]; simpl; repeat split.
Qed.

(** What [register] leaves alone, whether it succeeds or not. *)
Lemma register_frame (w : World) (name email password : string) :
  let w' := after (register name email password) w in
  AppState.projects (state w') = AppState.projects (state w) /\
  AppState.tasks (state w') = AppState.tasks (state w) /\
  AppState.theme (state w') = AppState.theme (state w) /\
  darkClass w' = darkClass w /\
  ticks w' = ticks w.
Proof.
  unfold after, register, bind, getStoredUsers. simpl.
  destruct (find _ _); simpl; repeat split.
Qed.

(** X1.  An account that [register] has just created can sign in: after a
    [register] on an unused email, [login] with the same email and password
    returns [true] and the session user has the registered name and email.
    Its id is the registered id when that id is not the empty string; for an
    empty generated id, [login] draws another one. *)
Theorem register_then_login (w : World) (name email password : string) :
  (forall u, In u (storedUsers w) -> Account.email u <> email) ->
  let w1 := after (register name email password) w in
  let id := random36 (oracle w) (draws w) in
  result (login email password) w1 = true /\
  AppState.user (state (after (login email password) w1)) =
    Some {| User.id := if id =? "" then random36 (oracle w) (S (draws w)) else id;
            User.name := name; User.email := email; User.avatar := None |} /\
  (id <> "" ->
   AppState.user (state (after (login email password) w1)) = AppState.user (state w1)).
Proof.
  intros Hno w1 id. pose proof (find_email_none email _ Hno) as F.
  pose proof (register_fresh w name email password F) as R. simpl in R.
  assert (E : w1 = snd (register name email password w)) by reflexivity.
  rewrite R in E. simpl in E.
  set (new := {| Account.id := Some id; Account.name := name;
                 Account.email := email; Account.password := password |}).
  assert (Ffind : find (credentials_match email password) (storedUsers w1) = Some new).
  { rewrite E. unfold storedUsers at 1. simpl. rewrite find_app_skip.
    - simpl. unfold credentials_match. simpl. now rewrite !String.eqb_refl.
    - intros x Hx. unfold credentials_match.
      apply Hno, String.eqb_neq in Hx. now rewrite Hx. }
  destruct (login_found w1 email password new Ffind) as [Hr Hu].
  assert (Hsid : session_id w1 new =
                 if id =? "" then random36 (oracle w) (S (draws w)) else id).
  { unfold session_id. simpl. rewrite E. reflexivity. }
  rewrite Hsid in Hu. split; [exact Hr|]. split; [exact Hu|].
  intros Hne. rewrite Hu. apply String.eqb_neq in Hne. rewrite Hne.
  rewrite E. reflexivity.
Qed.

(** [register_then_login] on [busy_world] with a new account for Cy. *)
Lemma register_then_login_witness :
  result (login "cy@example.com" "pa55word")
    (after (register "Cy" "cy@example.com" "pa55word") busy_world) = true /\
  AppState.user
    (state (after (login "cy@example.com" "pa55word")
              (after (register "Cy" "cy@example.com" "pa55word") busy_world))) =
    Some {| User.id := "k3x9q0z7a"; User.name := "Cy";
            User.email := "cy@example.com"; User.avatar := None |}.
Proof.
  destruct (register_then_login busy_world "Cy" "cy@example.com" "pa55word")
    as (Hr & Hu & _).
  - intros u Hin He. simpl in Hin.
    destruct Hin as [<- | [<- | []]]; simpl in He; discriminate.
  - split; [exact Hr | exact Hu].
Defined.

(** X2.  An email can be registered once: after a [register] on an unused
    email, every further [register] with that email, whatever the name and
    password, returns [false] and leaves the world as the first one left
    it. *)
Theorem register_twice_refused (w : World) (name email password name' password' : string) :
  (forall u, In u (storedUsers w) -> Account.email u <> email) ->
  let w1 := after (register name email password) w in
  result (register name' email password') w1 = false /\
  after (register name' email password') w1 = w1.
Proof.
  intros Hno w1.
  pose proof (register_fresh w name email password (find_email_none email _ Hno)) as R.
  simpl in R.
  assert (E : w1 = snd (register name email password w)) by reflexivity.
  rewrite R in E. simpl in E.
  destruct (find_email_some email (storedUsers w1)) as [u F].
  { exists {| Account.id := Some (random36 (oracle w) (draws w)); Account.name := name;
              Account.email := email; Account.password := password |}.
    split; [|reflexivity]. rewrite E. unfold storedUsers at 1. simpl.
    apply in_or_app. right. now left. }
  unfold result, after. now rewrite (register_taken w1 name' email password' u F).
Qed.

(** [register_twice_refused] on [busy_world]. *)
Lemma register_twice_refused_witness :
  result (register "Cyril" "cy@example.com" "other99")
    (after (register "Cy" "cy@example.com" "pa55word") busy_world) = false.
Proof.
  destruct (register_twice_refused busy_world "Cy" "cy@example.com" "pa55word"
              "Cyril" "other99") as [Hr _].
  - intros u Hin He. simpl in Hin.
    destruct Hin as [<- | [<- | []]]; simpl in He; discriminate.
  - exact Hr.
Defined.

(** The credential list after any action other than a successful
    [register] is the list before. *)
Lemma users_item_after (a : Action) (w : World) :
  users_item (after (perform a) w) = users_item w \/
  exists name email password,
    a = Register name email password /\
    (forall u, In u (storedUsers w) -> Account.email u <> email) /\
    storedUsers (after (perform a) w) =
      storedUsers w ++
        [ {| Account.id := Some (random36 (oracle w) (draws w)); Account.name := name;
             Account.email := email; Account.password := password |} ].
Proof.
  destruct a; try (left; reflexivity).
  - left. unfold after. simpl. unfold bind.
    pose proof (login_frame w email password) as H. unfold after in H.
    destruct (login email password w) as [b w1]. simpl in *. apply H.
  - destruct (find (fun u => Account.email u =? email) (storedUsers w)) as [u|] eqn:F.
    + left. unfold after. simpl. unfold bind, register at 1, bind, getStoredUsers.
      fold (storedUsers w). simpl. rewrite F. reflexivity.
    + right. exists name, email, password. split; [reflexivity|]. split.
      * intros u Hin He. apply String.eqb_eq in He.
        pose proof (find_none _ _ F u Hin) as Hf. simpl in Hf. congruence.
      * pose proof (register_fresh w name email password F) as R. simpl in R.
        unfold after. simpl. unfold bind. rewrite R. reflexivity.
Qed.

(** X3.  Accounts are only ever added, one at a time and at the end: after
    any action the credential list is the one before, followed by at most
    one account.  And no action breaks the uniqueness of emails: if no two
    accounts shared an email before, none do after. *)
Theorem accounts_only_grow (a : Action) (w : World) :
  (exists l, storedUsers (after (perform a) w) = storedUsers w ++ l /\ length l <= 1) /\
  (unique_emails (storedUsers w) -> unique_emails (storedUsers (after (perform a) w))).
Proof.
  destruct (users_item_after a w) as [E | (name & email & password & _ & Hno & E)].
  - assert (E' : storedUsers (after (perform a) w) = storedUsers w).
    { unfold storedUsers. now rewrite E. }
    rewrite E'. split; [|auto].
    exists []. rewrite app_nil_r. split; [reflexivity | simpl; lia].
  - rewrite E. split.
    + eexists. split; [reflexivity | simpl; lia].
    + unfold unique_emails. intros Hu. rewrite map_app. simpl.
      apply NoDup_app; [exact Hu | repeat constructor; intros [] |].
      intros e Hin [<- | []]. apply in_map_iff in Hin.
      destruct Hin as (u & He & Hin). exact (Hno u Hin He).
Qed.

(** [accounts_only_grow] on [busy_world], whose two accounts have distinct
    emails, for the registration of Cy. *)
Lemma accounts_only_grow_witness :
  unique_emails (storedUsers (after (perform (Register "Cy" "cy@example.com" "pa55word")) busy_world)).
Proof.
  destruct (accounts_only_grow (Register "Cy" "cy@example.com" "pa55word") busy_world)
    as [_ H].
  apply H. unfold unique_emails. simpl.
  repeat constructor; simpl; intuition discriminate.
Defined.

(** ** What each action leaves alone *)

(** X4.  Each action changes only its own part of the state: the three
    session actions leave projects, tasks and theme as they were; the
    project actions leave the session user and the theme ([addProject] and
    [updateProject] also the tasks); the task actions leave the session
    user, the projects and the theme; the theme actions leave the session
    user, the projects and the tasks.  No action but [register] writes the
    credential list. *)
Theorem action_frame (a : Action) (w : World) :
  let s := state w in
  let s' := state (after (perform a) w) in
  match a with
  | Login _ _ | Logout =>
      AppState.projects s' = AppState.projects s /\
      AppState.tasks s' = AppState.tasks s /\
      AppState.theme s' = AppState.theme s /\
      users_item (after (perform a) w) = users_item w
  | Register _ _ _ =>
      AppState.projects s' = AppState.projects s /\
      AppState.tasks s' = AppState.tasks s /\
      AppState.theme s' = AppState.theme s
  | AddProject _ | UpdateProject _ _ =>
      AppState.user s' = AppState.user s /\
      AppState.tasks s' = AppState.tasks s /\
      AppState.theme s' = AppState.theme s /\
      users_item (after (perform a) w) = users_item w
  | DeleteProject _ =>
      AppState.user s' = AppState.user s /\
      AppState.theme s' = AppState.theme s /\
      users_item (after (perform a) w) = users_item w
  | AddTask _ | UpdateTask _ _ | DeleteTask _ =>
      AppState.user s' = AppState.user s /\
      AppState.projects s' = AppState.projects s /\
      AppState.theme s' = AppState.theme s /\
      users_item (after (perform a) w) = users_item w
  | ToggleTheme | SetTheme _ =>
      AppState.user s' = AppState.user s /\
      AppState.projects s' = AppState.projects s /\
      AppState.tasks s' = AppState.tasks s /\
      users_item (after (perform a) w) = users_item w
  end.
Proof.
  destruct a; try (simpl; repeat split; fail).
  - pose proof (login_frame w email password) as H.
    unfold after in *. simpl. unfold bind.
    destruct (login email password w) as [b w1]. simpl in *. tauto.
  - pose proof (register_frame w name email password) as H.
    unfold after in *. simpl. unfold bind.
    destruct (register name email password w) as [b w1]. simpl in *. tauto.
Qed.

(** ** deleteTask *)

(** X5.  [deleteTask id] leaves in the task collection exactly the tasks
    whose id differs from [id]: the new collection is the old one with
    elements dropped, in the same order, and each remaining task occurs as
    often as before. *)
Theorem deleteTask_removes (w : World) (id : string) :
  let ts := AppState.tasks (state w) in
  let ts' := AppState.tasks (state (after (deleteTask id) w)) in
  (forall t, In t ts' <-> In t ts /\ Task.id t <> id) /\
  subseq ts' ts /\
  (forall t, Task.id t <> id ->
             count_occ Task_eq_dec ts' t = count_occ Task_eq_dec ts t) /\
  length ts' <= length ts.
Proof.
  intros ts ts'. subst ts ts'. unfold deleteTask. rewrite state_after_set. simpl.
  split; [|split; [|split]].
  - intros t. rewrite filter_In, <- neq_negb_eqb. reflexivity.
  - apply filter_subseq.
  - intros t Hne. apply count_occ_filter_kept. now apply neq_negb_eqb.
  - apply filter_length_le.
Qed.

(** [deleteTask_removes] on [busy_world]: deleting ["t1"] drops [draft] and
    keeps [review]. *)
Lemma deleteTask_removes_witness :
  ~ In draft (AppState.tasks (state (after (deleteTask "t1") busy_world))) /\
  count_occ Task_eq_dec (AppState.tasks (state (after (deleteTask "t1") busy_world))) review = 1.
Proof.
  destruct (deleteTask_removes busy_world "t1") as (Hin & _ & Hc & _).
  split.
  - intros H. apply Hin in H. destruct H as [_ H]. now apply H.
  - rewrite (Hc review); [reflexivity | discriminate].
Defined.

(** ** Deleting and updating twice *)

Lemma filter_idem (A : Type) (f : A -> bool) (l : list A) :
  filter f (filter f l) = filter f l.
Proof.
  apply filter_all_kept. intros x Hx. apply filter_In in Hx. apply Hx.
Qed.

(** X6.  Deleting is idempotent: a second [deleteTask] or [deleteProject]
    with the same id leaves the state the first one produced. *)
Theorem delete_idempotent (w : World) (id : string) :
  state (after (deleteTask id) (after (deleteTask id) w)) =
    state (after (deleteTask id) w) /\
  state (after (deleteProject id) (after (deleteProject id) w)) =
    state (after (deleteProject id) w).
Proof.
  unfold deleteTask, deleteProject. rewrite !state_after_set.
  destruct (state w) as [u ps ts th]. unfold set_tasks, set_projects. simpl.
  now rewrite !filter_idem.
Qed.

Lemma override_idem (A : Type) (x : A) (p : option A) :
  override (override x p) p = override x p.
Proof. now destruct p. Qed.

Lemma spreadTask_idem (t : Task.t) (task : PartialTask.t) :
  spreadTask (spreadTask t task) task = spreadTask t task.
Proof. unfold spreadTask. simpl. now rewrite !override_idem. Qed.

Lemma spreadProject_idem (p : Project.t) (project : PartialProject.t) :
  spreadProject (spreadProject p project) project = spreadProject p project.
Proof. unfold spreadProject. simpl. now rewrite !override_idem. Qed.

Lemma map_update_idem (A : Type) (test : A -> bool) (g : A -> A) (l : list A) :
  (forall x, g (g x) = g x) ->
  map (fun x => if test x then g x else x) (map (fun x => if test x then g x else x) l) =
  map (fun x => if test x then g x else x) l.
Proof.
  intros Hg. rewrite map_map. apply map_ext. intros x.
  destruct (test x) eqn:T; [|now rewrite T].
  destruct (test (g x)); [apply Hg | reflexivity].
Qed.

(** X7.  Updating is idempotent: applying the same patch to the same id a
    second time leaves the state the first application produced, for
    [updateTask] and for [updateProject], also when the patch changes the
    id. *)
Theorem update_idempotent (w : World) (id : string)
  (task : PartialTask.t) (project : PartialProject.t) :
  state (after (updateTask id task) (after (updateTask id task) w)) =
    state (after (updateTask id task) w) /\
  state (after (updateProject id project) (after (updateProject id project) w)) =
    state (after (updateProject id project) w).
Proof.
  unfold updateTask, updateProject. rewrite !state_after_set.
  destruct (state w) as [u ps ts th]. unfold set_tasks, set_projects. simpl.
  split; f_equal.
  - apply (map_update_idem _ (fun t => Task.id t =? id) (fun t => spreadTask t task)).
    intros t. apply spreadTask_idem.
  - apply (map_update_idem _ (fun p => Project.id p =? id) (fun p => spreadProject p project)).
    intros p. apply spreadProject_idem.
Qed.

(** X8.  Of two status changes of the same task the last one wins:
    [updateTask id { status: s1 }] followed by [updateTask id { status: s2 }]
    gives the state that [updateTask id { status: s2 }] alone gives. *)
Theorem status_last_wins (w : World) (id : string) (s1 s2 : Status) :
  state (after (updateTask id (PartialTask.only_status s2))
           (after (updateTask id (PartialTask.only_status s1)) w)) =
  state (after (updateTask id (PartialTask.only_status s2)) w).
Proof.
  unfold updateTask. rewrite !state_after_set.
  destruct (state w) as [u ps ts th]. unfold set_tasks. simpl. f_equal.
  rewrite map_map. apply map_ext. intros t.
  destruct (Task.id t =? id) eqn:E; simpl; rewrite E; reflexivity.
Qed.

(** ** Uniqueness of task ids *)

Lemma NoDup_snoc (A : Type) (l : list A) (x : A) :
  NoDup (l ++ [x]) <-> NoDup l /\ ~ In x l.
Proof.
  split.
  - intros H. split; [now apply NoDup_app_remove_r in H|].
    intros Hin. induction l as [|a l IH]; [destruct Hin|].
    simpl in H. apply NoDup_cons_iff in H. destruct H as [Ha Hl].
    destruct Hin as [-> | Hin]; [|now apply IH].
    apply Ha, in_or_app. right. now left.
  - intros [Hl Hx]. apply NoDup_app; [exact Hl | repeat constructor; intros [] |].
    intros a Ha [<- | []]. contradiction.
Qed.

Lemma NoDup_map_filter (A B : Type) (g : A -> B) (f : A -> bool) (l : list A) :
  NoDup (map g l) -> NoDup (map g (filter f l)).
Proof.
  induction l as [|a l IH]; simpl; intros H; [constructor|].
  apply NoDup_cons_iff in H. destruct H as [Ha Hl].
  destruct (f a); simpl; [|now apply IH].
  constructor; [|now apply IH].
  intros Hin. apply Ha. apply in_map_iff in Hin. destruct Hin as (x & Hx & Hin).
  apply in_map_iff. exists x. split; [exact Hx|]. apply filter_In in Hin. apply Hin.
Qed.

Lemma map_id_update (id : string) (task : PartialTask.t) (l : list Task.t) :
  PartialTask.id task = None ->
  map Task.id (map (fun t => if Task.id t =? id then spreadTask t task else t) l) =
  map Task.id l.
Proof.
  intros Hn. rewrite map_map. apply map_ext. intros t.
  destruct (Task.id t =? id); [|reflexivity]. simpl. now rewrite Hn.
Qed.

(** X9.  Task ids stay unique under deleting and updating, and under adding
    exactly when the generated id is new: from a state whose task ids are
    pairwise distinct, [deleteTask], [deleteProject] and every [updateTask]
    whose patch carries no id give such a state again, and [addTask] does so
    if and only if no task already has the id that [generateId] returns
    (the store does not look for a collision). *)
Theorem task_ids_stay_unique (w : World) :
  unique_task_ids (state w) ->
  (forall id, unique_task_ids (state (after (deleteTask id) w))) /\
  (forall id, unique_task_ids (state (after (deleteProject id) w))) /\
  (forall id task, PartialTask.id task = None ->
                   unique_task_ids (state (after (updateTask id task) w))) /\
  (forall task,
     unique_task_ids (state (after (addTask task) w)) <->
     ~ In (random36 (oracle w) (draws w)) (map Task.id (AppState.tasks (state w)))).
Proof.
  unfold unique_task_ids. intros Hu. split; [|split; [|split]].
  - intros id. unfold deleteTask. rewrite state_after_set. simpl.
    now apply NoDup_map_filter.
  - intros id. unfold deleteProject. rewrite state_after_set. simpl.
    now apply NoDup_map_filter.
  - intros id task Hn. unfold updateTask. rewrite state_after_set. simpl.
    now rewrite map_id_update.
  - intros task. simpl. rewrite map_app. simpl. rewrite NoDup_snoc. tauto.
Qed.

(** [task_ids_stay_unique] on [busy_world], whose two tasks have the ids
    ["t1"] and ["t2"]. *)
Lemma task_ids_stay_unique_witness :
  unique_task_ids (state (after (deleteTask "t1") busy_world)) /\
  unique_task_ids (state (after (addTask (ProjectDetailPage.newTaskOf "p1" "Ship" "" todo low "2024-07-01")) busy_world)).
Proof.
  destruct (task_ids_stay_unique busy_world) as (Hd & _ & _ & Ha).
  - unfold unique_task_ids. simpl. repeat constructor; simpl; intuition discriminate.
  - split; [apply Hd|]. apply Ha. simpl. intuition discriminate.
Defined.

(** ** Tasks and their projects *)

(** X10.  Every task keeps a project under the actions that are meant to:
    from a state in which each task refers to a project of the collection,
    [deleteProject] (by its cascade), [deleteTask], [addProject], every
    [updateTask] whose patch carries no [projectId], every [updateProject]
    whose patch carries no id, and every [addTask] for an existing project
    give such a state again. *)
Theorem tasks_keep_projects (w : World) :
  tasks_have_projects (state w) ->
  (forall id, tasks_have_projects (state (after (deleteProject id) w))) /\
  (forall id, tasks_have_projects (state (after (deleteTask id) w))) /\
  (forall project, tasks_have_projects (state (after (addProject project) w))) /\
  (forall id task, PartialTask.projectId task = None ->
                   tasks_have_projects (state (after (updateTask id task) w))) /\
  (forall id project, PartialProject.id project = None ->
                      tasks_have_projects (state (after (updateProject id project) w))) /\
  (forall task,
     (exists p, In p (AppState.projects (state w)) /\ Project.id p = NewTask.projectId task) ->
     tasks_have_projects (state (after (addTask task) w))).
Proof.
  unfold tasks_have_projects. intros H.
  split; [|split; [|split; [|split; [|split]]]].
  - intros id t. unfold deleteProject. rewrite state_after_set. simpl.
    rewrite filter_In. intros [Hin Hne]. destruct (H t Hin) as (p & Hp & E).
    exists p. split; [|exact E]. apply filter_In. split; [exact Hp|].
    now rewrite E.
  - intros id t. unfold deleteTask. rewrite state_after_set. simpl.
    rewrite filter_In. intros [Hin _]. exact (H t Hin).
  - intros project t. simpl. intros Hin. destruct (H t Hin) as (p & Hp & E).
    exists p. split; [|exact E]. apply in_or_app. now left.
  - intros id task Hn t. unfold updateTask. rewrite state_after_set. simpl.
    rewrite in_map_iff. intros (t0 & Ht & Hin). destruct (H t0 Hin) as (p & Hp & E).
    exists p. split; [exact Hp|]. rewrite E, <- Ht.
    destruct (Task.id t0 =? id); [|reflexivity]. simpl. now rewrite Hn.
  - intros id project Hn t. unfold updateProject. rewrite state_after_set. simpl.
    intros Hin. destruct (H t Hin) as (p & Hp & E).
    exists (if Project.id p =? id then spreadProject p project else p). split.
    + apply in_map_iff. now exists p.
    + rewrite <- E. destruct (Project.id p =? id); [|reflexivity]. simpl. now rewrite Hn.
  - intros task (p & Hp & E) t. simpl. intros Hin. apply in_app_or in Hin.
    destruct Hin as [Hin | [<- | []]]; [exact (H t Hin) | now exists p].
Qed.

(** [tasks_keep_projects] on [busy_world] once the task [review], which
    points nowhere, is deleted. *)
Lemma tasks_keep_projects_witness :
  tasks_have_projects
    (state (after (deleteProject "p1") (after (deleteTask "t2") busy_world))).
Proof.
  destruct (tasks_keep_projects (after (deleteTask "t2") busy_world)) as [Hd _].
  - intros t [<- | []]. exists website. split; [now left | reflexivity].
  - apply Hd.
Defined.

(** X11.  [updateProject] can strand tasks: when the patch sets another id,
    no project is left under the old id, while the tasks, which the action
    never touches, go on referring to it. *)
Theorem updateProject_rename_strands (w : World) (id newId : string)
  (project : PartialProject.t) :
  PartialProject.id project = Some newId ->
  newId <> id ->
  let s' := state (after (updateProject id project) w) in
  (forall p, In p (AppState.projects s') -> Project.id p <> id) /\
  AppState.tasks s' = AppState.tasks (state w) /\
  (forall t, In t (AppState.tasks (state w)) -> Task.projectId t = id ->
             ~ exists p, In p (AppState.projects s') /\ Project.id p = Task.projectId t).
Proof.
  intros Hid Hne s'. subst s'. unfold updateProject. rewrite state_after_set. simpl.
  assert (Hnone : forall p,
            In p (map (fun p => if Project.id p =? id then spreadProject p project else p)
                      (AppState.projects (state w))) -> Project.id p <> id).
  { intros p Hin. apply in_map_iff in Hin. destruct Hin as (p0 & <- & _).
    destruct (Project.id p0 =? id) eqn:E.
    - simpl. rewrite Hid. simpl. exact Hne.
    - now apply String.eqb_neq. }
  split; [exact Hnone|]. split; [reflexivity|].
  intros t _ Ht (p & Hp & E). rewrite Ht in E. exact (Hnone p Hp E).
Qed.

(** [updateProject_rename_strands] on [busy_world]: giving [website] the id
    ["p9"] leaves its task [draft] without a project. *)
Lemma updateProject_rename_strands_witness :
  ~ exists p,
      In p (AppState.projects
              (state (after (updateProject "p1"
                               (PartialProject.mk (Some "p9") None None None None))
                        busy_world))) /\
      Project.id p = Task.projectId draft.
Proof.
  destruct (updateProject_rename_strands busy_world "p1" "p9"
              (PartialProject.mk (Some "p9") None None None None) eq_refl)
    as (_ & _ & H).
  - discriminate.
  - apply (H draft); [now left | reflexivity].
Defined.

(** ** Adding, then deleting *)

(** X12.  Deleting what was just added restores the state, provided the
    generated id was new: after [addTask], [deleteTask] on the generated id
    gives back the state before when no task had that id; after
    [addProject], [deleteProject] on the generated id gives back the state
    before when no project had that id and no task referred to it. *)
Theorem add_then_delete (w : World) (task : NewTask.t) (project : NewProject.t) :
  let id := random36 (oracle w) (draws w) in
  ((forall t, In t (AppState.tasks (state w)) -> Task.id t <> id) ->
   state (after (deleteTask id) (after (addTask task) w)) = state w) /\
  ((forall p, In p (AppState.projects (state w)) -> Project.id p <> id) ->
   (forall t, In t (AppState.tasks (state w)) -> Task.projectId t <> id) ->
   state (after (deleteProject id) (after (addProject project) w)) = state w).
Proof.
  intros id. split.
  - intros Hn. unfold deleteTask. rewrite state_after_set. simpl.
    rewrite filter_app. simpl. fold id. rewrite String.eqb_refl. simpl.
    rewrite app_nil_r, filter_all_kept.
    + now destruct (state w).
    + intros t Hin. now apply neq_negb_eqb, Hn.
  - intros Hp Ht. unfold deleteProject. rewrite state_after_set. simpl.
    rewrite filter_app. simpl. fold id. rewrite String.eqb_refl. simpl.
    rewrite app_nil_r, !filter_all_kept.
    + now destruct (state w).
    + intros p Hin. now apply neq_negb_eqb, Hp.
    + intros t Hin. now apply neq_negb_eqb, Ht.
Qed.

(** [add_then_delete] on [busy_world], where the generated id
    ["k3x9q0z7a"] is new. *)
Lemma add_then_delete_witness :
  state (after (deleteTask "k3x9q0z7a")
           (after (addTask (ProjectDetailPage.newTaskOf "p1" "Ship" "" todo low "2024-07-01"))
              busy_world)) = state busy_world /\
  state (after (deleteProject "k3x9q0z7a")
           (after (addProject (NewProject.mk "Docs" "" "#22c55e")) busy_world)) =
    state busy_world.
Proof.
  destruct (add_then_delete busy_world
              (ProjectDetailPage.newTaskOf "p1" "Ship" "" todo low "2024-07-01")
              (NewProject.mk "Docs" "" "#22c55e")) as [Ht Hp].
  split.
  - apply Ht. intros t [<- | [<- | []]]; discriminate.
  - apply Hp.
    + intros p [<- | []]. discriminate.
    + intros t [<- | [<- | []]]; discriminate.
Defined.

(** ** Across a restart *)

(** Every action that does not return [false] ends with the snapshot equal
    to the state. *)
Lemma perform_persists (a : Action) (w : World) :
  result (perform a) w <> Some false ->
  storage_item (after (perform a) w) = Some (state (after (perform a) w)).
Proof.
  destruct a; try (intros _; reflexivity).
  - unfold result, after. simpl. unfold bind.
    destruct (login_cases email password w) as [E | [Hr Hs]].
    + rewrite E. simpl. intros H. now destruct H.
    + unfold result, after in Hr, Hs.
      destruct (login email password w) as [b w1]. simpl in *. intros _. exact Hs.
  - unfold result, after. simpl. unfold bind.
    destruct (register_cases name email password w) as [E | [Hr Hs]].
    + rewrite E. simpl. intros H. now destruct H.
    + unfold result, after in Hr, Hs.
      destruct (register name email password w) as [b w1]. simpl in *. intros _. exact Hs.
Qed.

Lemma reload_state (w : World) (s : AppState.t) :
  storage_item w = Some s -> state (reload w) = s.
Proof.
  intros E. unfold reload, after, rehydrate, bind, onRehydrateStorage. simpl.
  rewrite E. destruct s as [u ps ts th]. destruct th; reflexivity.
Qed.

(** X13.  What an action leaves in memory survives a restart: after any
    action that does not return [false], a new process over the same
    localStorage starts in the state the action produced.  The credential
    list is the same after a restart, and with no snapshot stored the new
    process starts without a session user, with no projects and no tasks,
    in the light theme. *)
Theorem state_survives_restart (a : Action) (w : World) :
  (result (perform a) w <> Some false ->
   state (reload (after (perform a) w)) = state (after (perform a) w)) /\
  users_item (reload w) = users_item w /\
  (storage_item w = None -> state (reload w) = initialState).
Proof.
  split; [|split].
  - intros H. apply reload_state. now apply perform_persists.
  - unfold reload, after, rehydrate, bind, onRehydrateStorage. simpl.
    destruct (is_dark _); reflexivity.
  - intros E. unfold reload, after, rehydrate, bind, onRehydrateStorage. simpl.
    rewrite E. reflexivity.
Qed.

(** [state_survives_restart] on [busy_world]: the project added before the
    restart is there after it. *)
Lemma state_survives_restart_witness :
  AppState.projects
    (state (reload (after (perform (AddProject (NewProject.mk "Docs" "" "#22c55e"))) busy_world))) =
    [website;
     {| Project.id := "k3x9q0z7a"; Project.name := "Docs"; Project.description := "";
        Project.color := "#22c55e"; Project.createdAt := "2024-05-01T09:00:00.000Z" |}] /\
  state (reload fresh_world) = initialState.
Proof.
  destruct (state_survives_restart (AddProject (NewProject.mk "Docs" "" "#22c55e")) busy_world)
    as (H & _ & _).
  destruct (state_survives_restart Logout fresh_world) as (_ & _ & H0).
  split.
  - rewrite H; [reflexivity | discriminate].
  - apply H0. reflexivity.
Defined.

(** ** The dark class *)

(** X14.  The ['dark'] class of the document root follows the theme: each
    of [toggleTheme] and [setTheme] makes the class present exactly when the
    new theme is ['dark'], whatever it was before, and every action keeps
    it so. *)
Theorem dark_class_follows_theme (a : Action) (w : World) :
  class_follows_theme (after toggleTheme w) /\
  (forall t, class_follows_theme (after (setTheme t) w)) /\
  (class_follows_theme w -> class_follows_theme (after (perform a) w)).
Proof.
  unfold class_follows_theme. split; [|split].
  - unfold after, toggleTheme. simpl. reflexivity.
  - intros t. reflexivity.
  - intros H. destruct a; try exact H; try reflexivity.
    + pose proof (login_frame w email password) as F.
      unfold after in *. simpl. unfold bind.
      destruct (login email password w) as [b w1]. simpl in *.
      destruct F as (_ & _ & _ & Ht & Hd & _). now rewrite Ht, Hd.
    + pose proof (register_frame w name email password) as F.
      unfold after in *. simpl. unfold bind.
      destruct (register name email password w) as [b w1]. simpl in *.
      destruct F as (_ & _ & Ht & Hd & _). now rewrite Ht, Hd.
Qed.

(** [dark_class_follows_theme] on [busy_world], light and without the
    class, for the deletion of a task. *)
Lemma dark_class_follows_theme_witness :
  class_follows_theme (after (perform (DeleteTask "t1")) busy_world).
Proof.
  destruct (dark_class_follows_theme (DeleteTask "t1") busy_world) as (_ & _ & H).
  apply H. reflexivity.
Defined.

(** ** Signing in and out *)

(** X15.  The login page goes to the dashboard exactly when the credentials
    match an account: then [MainLayout] renders and does not send the user
    back, and a success toast is added.  Otherwise the location and the
    world stay as they were and one destructive toast is added. *)
Theorem Login_onSubmit_outcome (b : Browser) (email password : string) :
  let b' := Login_onSubmit email password b in
  ((exists u, In u (storedUsers (world b)) /\ matches email password u) ->
   location b' = "/dashboard" /\
   MainLayout_renders b' = true /\
   MainLayout_effect b' = b' /\
   exists t, toasts b' = toasts b ++ [t] /\ toast_destructive t = false) /\
  ((forall u, In u (storedUsers (world b)) -> ~ matches email password u) ->
   location b' = location b /\
   world b' = world b /\
   exists t, toasts b' = toasts b ++ [t] /\ toast_destructive t = true).
Proof.
  intros b'. subst b'. unfold Login_onSubmit. split.
  - intros Hex. destruct (find_credentials_some email password _ Hex) as [u F].
    destruct (login_found (world b) email password u F) as [Hr Hu].
    unfold result, after in Hr, Hu.
    destruct (login email password (world b)) as [ok w1]. simpl in Hr, Hu. subst ok.
    unfold MainLayout_renders, MainLayout_effect. simpl. rewrite Hu.
    repeat split. eexists. split; reflexivity.
  - intros Hno.
    rewrite (login_not_found (world b) email password
               (find_credentials_none email password _ Hno)).
    repeat split. eexists. split; reflexivity.
Qed.

(** [Login_onSubmit_outcome] from the login page over [busy_world]. *)
Lemma Login_onSubmit_outcome_witness :
  location (Login_onSubmit "ann@example.com" "hunter22"
              {| world := busy_world; location := "/login"; toasts := [] |}) = "/dashboard" /\
  location (Login_onSubmit "ann@example.com" "hunter23"
              {| world := busy_world; location := "/login"; toasts := [] |}) = "/login".
Proof.
  destruct (Login_onSubmit_outcome {| world := busy_world; location := "/login"; toasts := [] |}
              "ann@example.com" "hunter22") as [Hyes _].
  destruct (Login_onSubmit_outcome {| world := busy_world; location := "/login"; toasts := [] |}
              "ann@example.com" "hunter23") as [_ Hno].
  split.
  - apply Hyes. exists ann. split; [simpl; auto | split; reflexivity].
  - apply Hno. intros u Hin [He Hp]. simpl in Hin.
    destruct Hin as [<- | [<- | []]]; simpl in *; discriminate.
Defined.

(** X16.  Signing out ends the session for good: after the sidebar's
    [logout], [MainLayout] renders nothing and navigates to the login page,
    [Index] navigates there too, a restart finds no session user, and the
    projects, the tasks and the credential list are as they were. *)
Theorem logout_ends_session (b : Browser) :
  let b' := Sidebar_logout b in
  MainLayout_renders b' = false /\
  location (MainLayout_effect b') = "/login" /\
  location (Index_effect b') = "/login" /\
  AppState.user (state (reload (world b'))) = None /\
  AppState.projects (state (world b')) = AppState.projects (state (world b)) /\
  AppState.tasks (state (world b')) = AppState.tasks (state (world b)) /\
  users_item (world b') = users_item (world b).
Proof.
  intros b'. subst b'. unfold Sidebar_logout, MainLayout_renders, MainLayout_effect,
    Index_effect. simpl.
  repeat split.
  rewrite (reload_state _ (set_user None (state (world b)))); reflexivity.
Qed.

(** * Properties of the pages *)

(** ** Counting by status *)

Lemma has_status_iff (s : Status) (t : Task.t) :
  has_status s t = true <-> Task.status t = s.
Proof.
  unfold has_status. rewrite String.eqb_eq.
  destruct (Task.status t), s; simpl; split; intros H;
    first [reflexivity | discriminate H].
Qed.

Lemma status_counts (l : list Task.t) :
  length (filter (has_status completed) l)
  + length (filter (has_status in_progress) l)
  + length (filter (has_status todo) l) = length l.
Proof.
  induction l as [|t l IH]; simpl; [reflexivity|].
  unfold has_status in *. simpl in *. destruct (Task.status t); simpl; lia.
Qed.

Lemma filter_length_mono (A : Type) (f g : A -> bool) (l : list A) :
  (forall x, f x = true -> g x = true) ->
  length (filter f l) <= length (filter g l).
Proof.
  intros H. induction l as [|a l IH]; simpl; [lia|].
  destruct (f a) eqn:Fa.
  - rewrite (H a Fa). simpl. lia.
  - destruct (g a); simpl; lia.
Qed.

Lemma not_completed_count (l : list Task.t) :
  length (filter (fun t => negb (has_status completed t)) l) =
  length (filter (has_status in_progress) l) + length (filter (has_status todo) l).
Proof.
  pose proof (filter_length (has_status completed) l).
  pose proof (status_counts l). lia.
Qed.

(** X17.  The dashboard's counts add up: completed, in-progress and to-do
    tasks together are all tasks; the overdue tasks and the upcoming tasks
    are each at most the tasks that are not completed, and no upcoming task
    is completed; and with no task at all the completion rate is 0, the
    division being skipped.  This holds whatever the date comparisons and
    the rounding return. *)
Theorem dashboard_counts_add_up
  (isBeforeNow isAfterNow isBeforeNextWeek : string -> bool)
  (roundPercent : nat -> nat -> nat)
  (projects : list Project.t) (tasks : list Task.t) :
  let st := DashboardPage.stats isBeforeNow isAfterNow isBeforeNextWeek roundPercent
              projects tasks in
  DashboardPage.completedTasks st + DashboardPage.inProgressTasks st
    + DashboardPage.todoTasks st = DashboardPage.totalTasks st /\
  DashboardPage.overdueTasks st <=
    DashboardPage.inProgressTasks st + DashboardPage.todoTasks st /\
  length (DashboardPage.upcomingTasks st) <=
    DashboardPage.inProgressTasks st + DashboardPage.todoTasks st /\
  (forall t, In t (DashboardPage.upcomingTasks st) ->
             In t tasks /\ Task.status t <> completed) /\
  (DashboardPage.totalTasks st = 0 -> DashboardPage.completionRate st = 0).
Proof.
  intros st. subst st. simpl. split; [apply status_counts|].
  split; [|split; [|split]].
  - rewrite <- not_completed_count. apply filter_length_mono.
    intros t H. apply andb_true_iff in H. apply H.
  - rewrite <- not_completed_count. apply filter_length_mono.
    intros t H. apply andb_true_iff in H. destruct H as [H _].
    apply andb_true_iff in H. apply H.
  - intros t H. apply filter_In in H. destruct H as [Hin H]. split; [exact Hin|].
    apply andb_true_iff in H. destruct H as [H _].
    apply andb_true_iff in H. destruct H as [H _].
    apply negb_true_iff in H. intros E. apply has_status_iff in E. congruence.
  - intros E. rewrite E. reflexivity.
Qed.

(** [dashboard_counts_add_up] with no task. *)
Lemma dashboard_counts_add_up_witness :
  DashboardPage.completionRate
    (DashboardPage.stats (fun _ => false) (fun _ => true) (fun _ => true)
       (fun a b => a * 100 / b) [website] []) = 0.
Proof.
  destruct (dashboard_counts_add_up (fun _ => false) (fun _ => true) (fun _ => true)
              (fun a b => a * 100 / b) [website] []) as (_ & _ & _ & _ & H).
  apply H. reflexivity.
Defined.

(** ** The project page *)

(** X18.  The project page counts the tasks of its project: [projectTasks]
    are exactly the tasks whose [projectId] is the page's id, in their
    order; the three status counts add up to [total], which is at most the
    number of all tasks; and the filtered list is [projectTasks] with
    elements dropped, and all of them when the search is empty and both
    filters are ["all"]. *)
Theorem project_page_counts
  (toLowerCase : string -> string) (includes : string -> string -> bool)
  (tasks : list Task.t) (id search statusFilter priorityFilter : string) :
  let pt := ProjectDetailPage.projectTasks tasks id in
  let st := ProjectDetailPage.stats pt in
  (forall t, In t pt <-> In t tasks /\ Task.projectId t = id) /\
  subseq pt tasks /\
  ProjectDetailPage.completed_count st + ProjectDetailPage.inProgress st
    + ProjectDetailPage.todo_count st = ProjectDetailPage.total st /\
  ProjectDetailPage.total st <= length tasks /\
  subseq (ProjectDetailPage.filteredTasks toLowerCase includes pt
            search statusFilter priorityFilter) pt /\
  ProjectDetailPage.filteredTasks toLowerCase includes pt "" "all" "all" = pt.
Proof.
  intros pt st. subst pt st.
  unfold ProjectDetailPage.projectTasks, tasksOfProject, ProjectDetailPage.filteredTasks.
  simpl. split; [|split; [|split; [|split; [|split]]]].
  - intros t. rewrite filter_In, String.eqb_eq. reflexivity.
  - apply filter_subseq.
  - apply status_counts.
  - apply filter_length_le.
  - apply filter_subseq.
  - apply filter_all_kept. reflexivity.
Qed.

(** [project_page_counts] on the tasks of [busy_world] and the page of
    ["p1"]. *)
Lemma project_page_counts_witness :
  In draft (ProjectDetailPage.projectTasks [draft; review] "p1") /\
  ~ In review (ProjectDetailPage.projectTasks [draft; review] "p1").
Proof.
  destruct (project_page_counts (fun s => s) (fun _ _ => false)
              [draft; review] "p1" "" "all" "all") as (H & _).
  split.
  - apply H. split; [now left | reflexivity].
  - intros Hin. apply H in Hin. destruct Hin as [_ E]. discriminate E.
Defined.

Lemma filter_filter_implied (A : Type) (f g : A -> bool) (l : list A) :
  (forall x, g x = true -> f x = true) ->
  filter g (filter f l) = filter g l.
Proof.
  intros H. induction l as [|a l IH]; simpl; [reflexivity|].
  destruct (f a) eqn:Fa; simpl.
  - now rewrite IH.
  - destruct (g a) eqn:Ga; [|exact IH]. rewrite (H a Ga) in Fa. discriminate.
Qed.

Lemma filter_none_kept (A : Type) (f : A -> bool) (l : list A) :
  (forall x, In x l -> f x = false) -> filter f l = [].
Proof.
  induction l as [|a l IH]; simpl; intros H; [reflexivity|].
  rewrite (H a (or_introl eq_refl)). apply IH. intros x Hx. apply H. now right.
Qed.

Lemma find_filter_implied (A : Type) (f g : A -> bool) (l : list A) :
  (forall x, g x = true -> f x = true) ->
  find g (filter f l) = find g l.
Proof.
  intros H. induction l as [|a l IH]; simpl; [reflexivity|].
  destruct (f a) eqn:Fa; simpl.
  - now rewrite IH.
  - destruct (g a) eqn:Ga; [|exact IH]. rewrite (H a Ga) in Fa. discriminate.
Qed.

Lemma eqb_other (a id id' : string) :
  id' <> id -> (a =? id') = true -> negb (a =? id) = true.
Proof.
  intros Hne E. apply String.eqb_eq in E. subst a. now apply neq_negb_eqb.
Qed.

(** X19.  After [deleteProject id] the pages have nothing left of the
    project: the project page of [id] finds no project and no task, so all
    its counts are 0, and the task page's [getProjectById] finds nothing
    for [id].  The pages of every other id show what they showed before. *)
Theorem pages_after_deleteProject (w : World) (id : string) :
  let s := state w in
  let s' := state (after (deleteProject id) w) in
  ProjectDetailPage.project (AppState.projects s') id = None /\
  TasksPage.getProjectById (AppState.projects s') id = None /\
  ProjectDetailPage.projectTasks (AppState.tasks s') id = [] /\
  ProjectDetailPage.total
    (ProjectDetailPage.stats (ProjectDetailPage.projectTasks (AppState.tasks s') id)) = 0 /\
  (forall id', id' <> id ->
     ProjectDetailPage.project (AppState.projects s') id' =
       ProjectDetailPage.project (AppState.projects s) id' /\
     ProjectDetailPage.projectTasks (AppState.tasks s') id' =
       ProjectDetailPage.projectTasks (AppState.tasks s) id').
Proof.
  intros s s'. subst s s'. unfold deleteProject. rewrite state_after_set. simpl.
  unfold ProjectDetailPage.project, TasksPage.getProjectById,
    ProjectDetailPage.projectTasks, tasksOfProject.
  assert (Hfind : find (fun p => Project.id p =? id)
                    (filter (fun p => negb (Project.id p =? id))
                       (AppState.projects (state w))) = None).
  { destruct (find _ _) as [p|] eqn:F; [|reflexivity].
    apply find_some in F. destruct F as [Hin E]. apply filter_In in Hin.
    destruct Hin as [_ Hn]. rewrite E in Hn. discriminate. }
  assert (Hnil : filter (fun t => Task.projectId t =? id)
                   (filter (fun t => negb (Task.projectId t =? id))
                      (AppState.tasks (state w))) = []).
  { apply filter_none_kept. intros t Hin. apply filter_In in Hin.
    destruct Hin as [_ Hn]. now apply negb_true_iff in Hn. }
  split; [exact Hfind|]. split; [exact Hfind|]. split; [exact Hnil|].
  split; [now rewrite Hnil|].
  intros id' Hne. split.
  - apply find_filter_implied. intros p. now apply eqb_other.
  - apply filter_filter_implied. intros t. now apply eqb_other.
Qed.

(** [pages_after_deleteProject] on [busy_world]: without ["p1"], the page of
    ["p2"] still lists [review]. *)
Lemma pages_after_deleteProject_witness :
  ProjectDetailPage.projectTasks
    (AppState.tasks (state (after (deleteProject "p1") busy_world))) "p2" = [review].
Proof.
  destruct (pages_after_deleteProject busy_world "p1") as (_ & _ & _ & _ & H).
  destruct (H "p2") as [_ Ht]; [discriminate|]. rewrite Ht. reflexivity.
Defined.

(** X20.  A task created on a project page shows up there and nowhere else:
    after [addTask] with the page's id as [projectId], the page's
    [projectTasks] are the ones before followed by the new task, [total]
    grows by one, and the [projectTasks] of every other id are as before. *)
Theorem project_page_after_addTask (w : World) (id title description : string)
  (status : Status) (priority : Priority) (dueDate : string) :
  let task := ProjectDetailPage.newTaskOf id title description status priority dueDate in
  let ts := AppState.tasks (state w) in
  let ts' := AppState.tasks (state (after (addTask task) w)) in
  ProjectDetailPage.projectTasks ts' id =
    ProjectDetailPage.projectTasks ts id ++
      [ {| Task.id := random36 (oracle w) (draws w); Task.projectId := id;
           Task.title := title; Task.description := description;
           Task.status := status; Task.priority := priority;
           Task.dueDate := dueDate;
           Task.createdAt := isoTime (oracle w) (ticks w) |} ] /\
  ProjectDetailPage.total (ProjectDetailPage.stats (ProjectDetailPage.projectTasks ts' id)) =
    S (ProjectDetailPage.total (ProjectDetailPage.stats (ProjectDetailPage.projectTasks ts id))) /\
  (forall id', id' <> id ->
     ProjectDetailPage.projectTasks ts' id' = ProjectDetailPage.projectTasks ts id').
Proof.
  intros task ts ts'. subst task ts ts'. simpl.
  unfold ProjectDetailPage.projectTasks, tasksOfProject.
  split; [|split].
  - rewrite filter_app. simpl. now rewrite String.eqb_refl.
  - rewrite filter_app. simpl. rewrite String.eqb_refl, length_app. simpl. lia.
  - intros id' Hne. rewrite filter_app. simpl.
    assert (E : (id =? id') = false) by (apply String.eqb_neq; congruence).
    rewrite E. apply app_nil_r.
Qed.

(** [project_page_after_addTask] on [busy_world]: a task added on the page
    of ["p1"] does not reach the page of ["p2"]. *)
Lemma project_page_after_addTask_witness :
  ProjectDetailPage.projectTasks
    (AppState.tasks
       (state (after (addTask (ProjectDetailPage.newTaskOf "p1" "Ship" "" todo low "2024-07-01"))
                 busy_world))) "p2" = [review].
Proof.
  destruct (project_page_after_addTask busy_world "p1" "Ship" "" todo low "2024-07-01")
    as (_ & _ & H).
  rewrite (H "p2"); [reflexivity | discriminate].
Defined.

(** ** The task page *)

Lemma all_or_eqb (x filter_value : string) :
  (filter_value =? "all") || (x =? filter_value) = true ->
  filter_value = "all" \/ x = filter_value.
Proof.
  intros H. apply orb_true_iff in H. destruct H as [H | H];
    apply String.eqb_eq in H; auto.
Qed.

(** X21.  The task page's filters only narrow: the filtered list is the
    task collection with elements dropped, every task in it passes each
    filter that is not ["all"], and with an empty search and all three
    filters at ["all"] it is the whole collection.  Filtering by a project
    alone lists exactly that project's tasks, as its project page does,
    unless the project's id is the string ["all"]. *)
Theorem task_page_filters
  (toLowerCase : string -> string) (includes : string -> string -> bool)
  (tasks : list Task.t) (search statusFilter priorityFilter projectFilter : string) :
  let ft := TasksPage.filteredTasks toLowerCase includes tasks
              search statusFilter priorityFilter projectFilter in
  subseq ft tasks /\
  (forall t, In t ft ->
     In t tasks /\
     (statusFilter = "all" \/ Status_string (Task.status t) = statusFilter) /\
     (priorityFilter = "all" \/ Priority_string (Task.priority t) = priorityFilter) /\
     (projectFilter = "all" \/ Task.projectId t = projectFilter)) /\
  TasksPage.filteredTasks toLowerCase includes tasks "" "all" "all" "all" = tasks /\
  (projectFilter <> "all" ->
   TasksPage.filteredTasks toLowerCase includes tasks "" "all" "all" projectFilter =
     ProjectDetailPage.projectTasks tasks projectFilter).
Proof.
  intros ft. subst ft. unfold TasksPage.filteredTasks.
  split; [apply filter_subseq|]. split; [|split].
  - intros t H. apply filter_In in H. destruct H as [Hin H]. split; [exact Hin|].
    unfold TasksPage.keeps in H.
    apply andb_true_iff in H. destruct H as [H Hproj].
    apply andb_true_iff in H. destruct H as [H Hprio].
    apply andb_true_iff in H. destruct H as [_ Hstat].
    split; [now apply all_or_eqb|]. split; now apply all_or_eqb.
  - apply filter_all_kept. reflexivity.
  - intros Hne. unfold ProjectDetailPage.projectTasks, tasksOfProject.
    apply filter_ext. intros t. unfold TasksPage.keeps. simpl.
    apply String.eqb_neq in Hne. now rewrite Hne.
Qed.

(** [task_page_filters] on the tasks of [busy_world], filtered by the
    project ["p1"]. *)
Lemma task_page_filters_witness :
  TasksPage.filteredTasks (fun s => s) (fun _ _ => false)
    [draft; review] "" "all" "all" "p1" = [draft].
Proof.
  destruct (task_page_filters (fun s => s) (fun _ _ => false)
              [draft; review] "" "all" "all" "p1") as (_ & _ & _ & H).
  rewrite H; [reflexivity | discriminate].
Defined.

Lemma fold_push (l : list Task.t) (g : TasksPage.Groups) :
  fold_left TasksPage.push l g =
  {| TasksPage.g_todo := TasksPage.g_todo g ++ filter (has_status todo) l;
     TasksPage.g_in_progress :=
       TasksPage.g_in_progress g ++ filter (has_status in_progress) l;
     TasksPage.g_completed :=
       TasksPage.g_completed g ++ filter (has_status completed) l |}.
Proof.
  revert g. induction l as [|t l IH]; intros g; simpl.
  - rewrite !app_nil_r. now destruct g.
  - rewrite IH. unfold TasksPage.push, has_status.
    destruct (Task.status t); simpl; rewrite <- ?app_assoc; reflexivity.
Qed.

Lemma group_of_groupedByStatus (l : list Task.t) (s : Status) :
  TasksPage.group (TasksPage.groupedByStatus l) s = filter (has_status s) l.
Proof.
  unfold TasksPage.groupedByStatus. rewrite fold_push. now destruct s.
Qed.

(** X22.  The three columns of the task page split the filtered tasks by
    status: the loop that pushes each task into the array of its status
    gives, for every status, exactly the filtered tasks of that status in
    their order; a task is in a column if and only if it is a filtered task
    with that status, and the three columns together have as many tasks as
    the filtered list. *)
Theorem groupedByStatus_splits (filteredTasks : list Task.t) :
  let groups := TasksPage.groupedByStatus filteredTasks in
  (forall s, TasksPage.group groups s = filter (has_status s) filteredTasks) /\
  (forall s t, In t (TasksPage.group groups s) <->
               In t filteredTasks /\ Task.status t = s) /\
  length (TasksPage.group groups todo)
  + length (TasksPage.group groups in_progress)
  + length (TasksPage.group groups completed) = length filteredTasks.
Proof.
  intros groups. subst groups.
  pose proof (group_of_groupedByStatus filteredTasks) as G.
  split; [exact G|]. split.
  - intros s t. rewrite G, filter_In, has_status_iff. reflexivity.
  - rewrite !G. pose proof (status_counts filteredTasks). lia.
Qed.

(** [groupedByStatus_splits] on the tasks of [busy_world]: [draft] is in
    the to-do column and not in the completed one. *)
Lemma groupedByStatus_splits_witness :
  In draft (TasksPage.group (TasksPage.groupedByStatus [draft; review]) todo) /\
  ~ In draft (TasksPage.group (TasksPage.groupedByStatus [draft; review]) completed).
Proof.
  destruct (groupedByStatus_splits [draft; review]) as (_ & H & _).
  split.
  - apply H. split; [now left | reflexivity].
  - intros Hin. apply H in Hin. destruct Hin as [_ E]. discriminate E.
Defined.

(** X23.  A task row finds its project whenever the task has one: in a
    state where every task refers to a project of the collection,
    [getProjectById] on a task's [projectId] returns a project with that
    id; and it returns nothing exactly when no project has the id. *)
Theorem getProjectById_finds (projects : list Project.t) (tasks : list Task.t) :
  (forall projectId,
     TasksPage.getProjectById projects projectId = None <->
     forall p, In p projects -> Project.id p <> projectId) /\
  (forall projectId p,
     TasksPage.getProjectById projects projectId = Some p ->
     In p projects /\ Project.id p = projectId) /\
  (tasks_have_projects {| AppState.user := None; AppState.projects := projects;
                          AppState.tasks := tasks; AppState.theme := light |} ->
   forall t, In t tasks ->
     exists p, TasksPage.getProjectById projects (Task.projectId t) = Some p /\
               Project.id p = Task.projectId t).
Proof.
  unfold TasksPage.getProjectById.
  assert (Hsome : forall projectId p,
            find (fun p => Project.id p =? projectId) projects = Some p ->
            In p projects /\ Project.id p = projectId).
  { intros projectId p F. apply find_some in F. destruct F as [Hin E].
    now apply String.eqb_eq in E. }
  assert (Hnone : forall projectId,
            find (fun p => Project.id p =? projectId) projects = None <->
            forall p, In p projects -> Project.id p <> projectId).
  { intros projectId. split.
    - intros F p Hin. apply String.eqb_neq. exact (find_none _ _ F p Hin).
    - intros H. destruct (find _ projects) as [p|] eqn:F; [|reflexivity].
      destruct (Hsome _ _ F) as [Hin E]. destruct (H p Hin E). }
  split; [exact Hnone|]. split; [exact Hsome|].
  intros H t Hin. destruct (H t Hin) as (p & Hp & E). simpl in Hp.
  destruct (find (fun p => Project.id p =? Task.projectId t) projects) as [q|] eqn:F.
  - exists q. split; [reflexivity|]. apply (Hsome _ _ F).
  - destruct (proj1 (Hnone (Task.projectId t)) F p Hp E).
Qed.

(** [getProjectById_finds] on the project and the first task of
    [busy_world]. *)
Lemma getProjectById_finds_witness :
  exists p, TasksPage.getProjectById [website] (Task.projectId draft) = Some p /\
            Project.id p = Task.projectId draft.
Proof.
  destruct (getProjectById_finds [website] [draft]) as (_ & _ & H).
  apply H; [|now left].
  intros t [<- | []]. exists website. split; [now left | reflexivity].
Defined.

(** ** The project list *)

(** X24.  The project list's search only narrows, and its cards count
    within bounds: with an empty search all projects are listed; otherwise
    the list is the collection with elements dropped, and each listed
    project matches the lowered search in its name or its description.  On
    a card, the completed tasks are at most the project's tasks, and those
    at most all tasks. *)
Theorem project_list_search
  (toLowerCase : string -> string) (includes : string -> string -> bool)
  (projects : list Project.t) (tasks : list Task.t) (search : string) :
  let fp := ProjectsPage.filteredProjects toLowerCase includes projects search in
  ProjectsPage.filteredProjects toLowerCase includes projects "" = projects /\
  subseq fp projects /\
  (search <> "" ->
   forall p, In p fp ->
     In p projects /\
     (includes (toLowerCase (Project.name p)) (toLowerCase search) = true \/
      includes (toLowerCase (Project.description p)) (toLowerCase search) = true)) /\
  (forall p,
     ProjectsPage.completedCount tasks p <= length (ProjectsPage.cardTasks tasks p) /\
     length (ProjectsPage.cardTasks tasks p) <= length tasks).
Proof.
  intros fp. subst fp. unfold ProjectsPage.filteredProjects.
  split; [reflexivity|]. split; [|split].
  - destruct (search =? ""); [|apply filter_subseq].
    clear. induction projects as [|p l IH]; constructor; exact IH.
  - intros Hne p. apply String.eqb_neq in Hne. rewrite Hne.
    rewrite filter_In, orb_true_iff. tauto.
  - intros p. unfold ProjectsPage.completedCount, ProjectsPage.cardTasks, tasksOfProject.
    split; apply filter_length_le.
Qed.

(** [project_list_search] for the search ["Website"], with an [includes]
    that compares for equality: [website] is listed and matches. *)
Lemma project_list_search_witness :
  In website (ProjectsPage.filteredProjects (fun s => s) String.eqb [website] "Website") /\
  ((Project.name website =? "Website") = true \/
   (Project.description website =? "Website") = true).
Proof.
  destruct (project_list_search (fun s => s) String.eqb [website] [draft] "Website")
    as (_ & _ & H & _).
  assert (Hin : In website
                  (ProjectsPage.filteredProjects (fun s => s) String.eqb [website] "Website")).
  { simpl. now left. }
  split; [exact Hin|].
  apply (H ltac:(discriminate) website Hin).
Defined.
